(** * Mistral-OCR front end: page selection, Markdown aggregation, Word export

    A shallow embedding of [src/app.py] and [src/docconv.py].

    Python values are modelled as follows.
    - A [str] is a list of Unicode code points ([N]).  The character classes
      used by the built-ins ([str.strip], [str.isdigit], [int],
      [str.splitlines]) follow CPython 3.11 (Unicode 14.0).
    - An [int] is a [Z].  [int] of a string has the interpreter's default
      limit of 4300 digits; the memory a huge [range] needs is not
      modelled, and neither are failures inside the document library.
    - A [set] of ints is a [gset Z].
    - A call that may raise returns a [result]. *)

From Stdlib Require Import ZArith NArith List Ascii String Lia.
From Stdlib Require Import Decimal DecimalPos DecimalZ.
From stdpp Require Import base decidable option list list_numbers numbers gmap sets.

Local Open Scope N_scope.

(** ** Strings *)

Abbreviation char := N (only parsing).
Abbreviation str := (list N) (only parsing).

(** A string literal of the source, as code points. *)
Definition py (s : string) : str := map N_of_ascii (list_ascii_of_string s).

Module Chr.
Definition tab : char := 9.
Definition lf : char := 10.
Definition vt : char := 11.
Definition ff : char := 12.
Definition cr : char := 13.
Definition space : char := 32.
Definition hash : char := 35.
Definition plus : char := 43.
Definition comma : char := 44.
Definition dash : char := 45.
Definition zero : char := 48.
Definition nine : char := 57.
Definition question : char := 63.
Definition underscore : char := 95.
End Chr.

(** ** Exceptions *)

Inductive exn : Type :=
  | ValueError
  | RuntimeError (msg : str)
  | OSError
  | UnicodeEncodeError.

Inductive result (A : Type) : Type :=
  | Return (a : A)
  | Raise (e : exn).
Arguments Return {A} a.
Arguments Raise {A} e.

#[global] Instance result_ret : MRet result := λ A a, Return a.
#[global] Instance result_bind : MBind result := λ A B f m,
  match m with
  | Return a => f a
  | Raise e => Raise e
  end.

(** ** Unicode character classes *)

Definition in_range (c : char) (r : N * N) : bool :=
  (fst r <=? c) && (c <=? snd r).

(** [Py_UNICODE_ISSPACE]: bidirectional type WS, B or S, or category Zs. *)
Definition whitespace_points : list N :=
  [ 0x9; 0xa; 0xb; 0xc; 0xd; 0x1c; 0x1d; 0x1e; 0x1f; 0x20; 0x85; 0xa0;
    0x1680; 0x2000; 0x2001; 0x2002; 0x2003; 0x2004; 0x2005; 0x2006; 0x2007;
    0x2008; 0x2009; 0x200a; 0x2028; 0x2029; 0x202f; 0x205f; 0x3000 ].

Definition isspace_char (c : char) : bool :=
  existsb (N.eqb c) whitespace_points.

(** Code points of Numeric_Type=Decimal (category Nd).  Every range starts
    at a digit zero and runs over whole decades. *)
Definition decimal_ranges : list (N * N) :=
  [ (48, 57); (1632, 1641); (1776, 1785); (1984, 1993); (2406, 2415);
    (2534, 2543); (2662, 2671); (2790, 2799); (2918, 2927); (3046, 3055);
    (3174, 3183); (3302, 3311); (3430, 3439); (3558, 3567); (3664, 3673);
    (3792, 3801); (3872, 3881); (4160, 4169); (4240, 4249); (6112, 6121);
    (6160, 6169); (6470, 6479); (6608, 6617); (6784, 6793); (6800, 6809);
    (6992, 7001); (7088, 7097); (7232, 7241); (7248, 7257); (42528, 42537);
    (43216, 43225); (43264, 43273); (43472, 43481); (43504, 43513);
    (43600, 43609); (44016, 44025); (65296, 65305); (66720, 66729);
    (68912, 68921); (69734, 69743); (69872, 69881); (69942, 69951);
    (70096, 70105); (70384, 70393); (70736, 70745); (70864, 70873);
    (71248, 71257); (71360, 71369); (71472, 71481); (71904, 71913);
    (72016, 72025); (72784, 72793); (73040, 73049); (73120, 73129);
    (92768, 92777); (92864, 92873); (93008, 93017); (120782, 120831);
    (123200, 123209); (123632, 123641); (125264, 125273); (130032, 130041) ].

(** Code points of Numeric_Type=Digit: superscripts, subscripts, circled
    digits and the like.  [str.isdigit] accepts them, [int] does not. *)
Definition other_digit_ranges : list (N * N) :=
  [ (178, 179); (185, 185); (4969, 4977); (6618, 6618); (8304, 8304);
    (8308, 8313); (8320, 8329); (9312, 9320); (9332, 9340); (9352, 9360);
    (9450, 9450); (9461, 9469); (9471, 9471); (10102, 10110); (10112, 10120);
    (10122, 10130); (68160, 68163); (69216, 69224); (69714, 69722);
    (127232, 127242) ].

Fixpoint decimal_in (rs : list (N * N)) (c : char) : option N :=
  match rs with
  | [] => None
  | r :: rs' =>
      if in_range c r then Some ((c - fst r) mod 10) else decimal_in rs' c
  end.

(** [Py_UNICODE_TODECIMAL]: the value of a decimal digit. *)
Definition decimal (c : char) : option N := decimal_in decimal_ranges c.

Definition isdecimal_char (c : char) : bool :=
  match decimal c with Some _ => true | None => false end.

(** [Py_UNICODE_ISDIGIT] *)
Definition isdigit_char (c : char) : bool :=
  isdecimal_char c || existsb (in_range c) other_digit_ranges.

(** ** String built-ins *)

(** Truthiness of a string: [not s] holds for the empty string only. *)
Definition str_not (s : str) : bool :=
  match s with [] => true | _ :: _ => false end.

Fixpoint lstrip_with (ws : char → bool) (s : str) : str :=
  match s with
  | [] => []
  | c :: s' => if ws c then lstrip_with ws s' else s
  end.

Definition strip_with (ws : char → bool) (s : str) : str :=
  rev (lstrip_with ws (rev (lstrip_with ws s))).

(** [s.strip()] *)
Definition str_strip (s : str) : str := strip_with isspace_char s.

(** [s.isdigit()]: at least one character, all of them digits. *)
Definition str_isdigit (s : str) : bool :=
  negb (str_not s) && forallb isdigit_char s.

(** [sep in s], for a one-character [sep]. *)
Definition str_contains (sep : char) (s : str) : bool :=
  existsb (N.eqb sep) s.

(** [s.split(sep)], for a one-character [sep]. *)
Fixpoint str_split (sep : char) (s : str) : list (list N) :=
  match s with
  | [] => [[]]
  | c :: s' =>
      if c =? sep then [] :: str_split sep s'
      else match str_split sep s' with
           | cur :: rest => (c :: cur) :: rest
           | [] => [[c]]
           end
  end.

(** [s.split(sep, 1)], for a one-character [sep]. *)
Fixpoint str_split1 (sep : char) (s : str) : list (list N) :=
  match s with
  | [] => [[]]
  | c :: s' =>
      if c =? sep then [[]; s']
      else match str_split1 sep s' with
           | cur :: rest => (c :: cur) :: rest
           | [] => [[c]]
           end
  end.

(** [sep.join(parts)] *)
Fixpoint str_join (sep : str) (parts : list (list N)) : str :=
  match parts with
  | [] => []
  | [p] => p
  | p :: ps => p ++ sep ++ str_join sep ps
  end.

(** [s.startswith(prefix)] *)
Fixpoint str_startswith (prefix s : str) : bool :=
  match prefix, s with
  | [], _ => true
  | _ :: _, [] => false
  | p :: prefix', c :: s' => (c =? p) && str_startswith prefix' s'
  end.

(** ** [int(s)] for a string argument *)

(** [Py_ISSPACE], the ASCII class [int] skips around the literal. *)
Definition int_space (c : char) : bool :=
  existsb (N.eqb c) [Chr.tab; Chr.lf; Chr.vt; Chr.ff; Chr.cr; Chr.space].

(** [_PyUnicode_TransformDecimalAndSpaceToASCII], character by character:
    code points below 127 are kept, other white space becomes a blank, other
    decimal digits become ASCII digits, and anything else becomes ['?']
    (CPython also cuts the string there; the literal is rejected either
    way). *)
Definition to_ascii_char (c : char) : char :=
  if c <? 127 then c
  else if isspace_char c then Chr.space
  else match decimal c with
       | Some d => Chr.zero + d
       | None => Chr.question
       end.

(** The digits of a base-10 literal, with single underscores allowed
    between digits.  [us] records that the previous position was not a
    digit (an underscore, or the start of the literal). *)
Fixpoint digits_value (acc : Z) (us : bool) (s : str) : option Z :=
  match s with
  | [] => if us then None else Some acc
  | c :: s' =>
      if c =? Chr.underscore then
        if us then None else digits_value acc true s'
      else if (Chr.zero <=? c) && (c <=? Chr.nine) then
        digits_value (10 * acc + Z.of_N (c - Chr.zero))%Z false s'
      else None
  end.

(** [sys.int_info.default_max_str_digits]: a decimal literal with more
    digits than this is refused. *)
Definition int_max_str_digits : Z := 4300.

(** The digits of a literal: all its characters but the underscores. *)
Definition count_digits (body : str) : Z :=
  Z.of_nat (length (List.filter (λ c, negb (c =? Chr.underscore)) body)).

Definition int_of_str (s : str) : result Z :=
  let t := strip_with int_space (map to_ascii_char s) in
  let '(sign, body) :=
    match t with
    | c :: t' =>
        if c =? Chr.plus then (1%Z, t')
        else if c =? Chr.dash then ((-1)%Z, t')
        else (1%Z, t)
    | [] => (1%Z, [])
    end in
  match digits_value 0 true body with
  | Some v =>
      if (int_max_str_digits <? count_digits body)%Z then Raise ValueError
      else Return (sign * v)%Z
  | None => Raise ValueError
  end.

(** ** [parse_page_selection] (app.py, lines 14-36) *)

(** [range(start, stop)] as the set it adds to [pages]. *)
Definition py_range (start stop : Z) : gset Z :=
  list_to_set (seqZ start (stop - start)).

(** One iteration of the loop over [s.split(",")]. *)
Definition parse_part (pages : gset Z) (part : str) : result (gset Z) :=
  let part := str_strip part in
  if str_not part then Return pages
  else if str_contains Chr.dash part then
    match str_split1 Chr.dash part with
    | [a; b] =>
        if str_isdigit (str_strip a) && str_isdigit (str_strip b) then
          start ← int_of_str a;
          end_ ← int_of_str b;
          let '(start, end_) :=
            if (end_ <? start)%Z then (end_, start) else (start, end_) in
          Return (pages ∪ py_range start (end_ + 1))
        else Return pages
    | _ => Raise ValueError
    end
  else if str_isdigit part then
    p ← int_of_str part;
    Return (pages ∪ {[ p ]})
  else Return pages.

Fixpoint parse_parts (pages : gset Z) (parts : list (list N)) : result (gset Z) :=
  match parts with
  | [] => Return pages
  | part :: rest =>
      pages' ← parse_part pages part;
      parse_parts pages' rest
  end.

(** [pages or None] *)
Definition set_or_None (pages : gset Z) : option (gset Z) :=
  if decide (pages = ∅) then None else Some pages.

Definition parse_page_selection (s : str) : result (option (gset Z)) :=
  if str_not s then Return None
  else
    let s := str_strip s in
    if str_not s then Return None
    else
      pages ← parse_parts ∅ (str_split Chr.comma s);
      Return (set_or_None pages).

(** ** The OCR response and the page filter (app.py, lines 97-103) *)

(** A page of the response: the index the service reports and the Markdown
    body. *)
Record page : Type := { index : Z; markdown : str }.

(** Truthiness of [sel_1based]: [None] and the empty set are falsy. *)
Definition sel_truthy (sel : option (gset Z)) : bool :=
  match sel with
  | Some pages => negb (bool_decide (pages = ∅))
  | None => false
  end.

(** [{p - 1 for p in sel_1based if 1 <= p <= total_pages}] *)
Definition index_set (pages : gset Z) (total_pages : Z) : gset Z :=
  set_map (λ p, p - 1)%Z (filter (λ p, 1 ≤ p ≤ total_pages)%Z pages).

Definition selected_idx (sel : option (gset Z)) (total_pages : Z)
  : option (gset Z) :=
  match sel with
  | Some pages =>
      if sel_truthy sel then Some (index_set pages total_pages) else None
  | None => None
  end.

(** ** Markdown aggregation (app.py, lines 105-109) *)

Fixpoint uint_str (u : Decimal.uint) : str :=
  match u with
  | Nil => []
  | D0 u' => 48 :: uint_str u'
  | D1 u' => 49 :: uint_str u'
  | D2 u' => 50 :: uint_str u'
  | D3 u' => 51 :: uint_str u'
  | D4 u' => 52 :: uint_str u'
  | D5 u' => 53 :: uint_str u'
  | D6 u' => 54 :: uint_str u'
  | D7 u' => 55 :: uint_str u'
  | D8 u' => 56 :: uint_str u'
  | D9 u' => 57 :: uint_str u'
  end.

(** An [int] inside an f-string: its decimal numeral. *)
Definition str_of_int (z : Z) : str :=
  match Z.to_int z with
  | Decimal.Pos u => uint_str u
  | Decimal.Neg u => Chr.dash :: uint_str u
  end.

(** Two line feeds: the end of a line and an empty line. *)
Definition blank_line : str := [Chr.lf; Chr.lf].

(** [f"## Page {page.index + 1}\n\n{page.markdown}"] *)
Definition page_heading (p : page) : str :=
  py "## Page " ++ str_of_int (index p + 1).

Definition page_block (p : page) : str :=
  page_heading p ++ blank_line ++ markdown p.

(** [selected_idx is None or page.index in selected_idx] *)
Definition page_selected (idx : option (gset Z)) (p : page) : bool :=
  match idx with
  | None => true
  | Some keep => bool_decide (index p ∈ keep)
  end.

(** The loop that appends to [md_pages], with the list built so far. *)
Fixpoint md_pages_loop (idx : option (gset Z)) (pages : list page)
    (md_pages : list (list N)) : list (list N) :=
  match pages with
  | [] => md_pages
  | p :: rest =>
      md_pages_loop idx rest
        (if page_selected idx p then md_pages ++ [page_block p] else md_pages)
  end.

Definition md_pages (idx : option (gset Z)) (pages : list page) : list (list N) :=
  md_pages_loop idx pages [].

Definition md_text (idx : option (gset Z)) (pages : list page) : str :=
  str_join blank_line (md_pages idx pages).

(** ** Word export (app.py, lines 131-147) *)

(** The line boundaries of [str.splitlines]. *)
Definition linebreak_points : list N :=
  [ 0xa; 0xb; 0xc; 0xd; 0x1c; 0x1d; 0x1e; 0x85; 0x2028; 0x2029 ].

Definition is_linebreak (c : char) : bool :=
  existsb (N.eqb c) linebreak_points.

(** [s.splitlines()]; [cur] holds the characters of the current line in
    reverse.  A carriage return followed by a line feed is one boundary,
    and no empty line is produced after the last boundary. *)
Fixpoint splitlines_from (cur : str) (s : str) : list (list N) :=
  match s with
  | [] => match cur with [] => [] | _ :: _ => [rev cur] end
  | c :: s' =>
      if is_linebreak c then
        rev cur ::
          match s' with
          | c' :: s'' =>
              if (c =? Chr.cr) && (c' =? Chr.lf) then splitlines_from [] s''
              else splitlines_from [] s'
          | [] => []
          end
      else splitlines_from (c :: cur) s'
  end.

Definition str_splitlines (s : str) : list (list N) := splitlines_from [] s.

(** What the exporter adds to the document. *)
Inductive block : Type :=
  | Heading (level : nat) (text : str)
  | Paragraph (text : str).

(** The body of the loop over the lines: which [doc.add_*] call is made. *)
Definition export_line (line : str) : block :=
  if str_startswith (py "###### ") line then Heading 6 (drop 7 line)
  else if str_startswith (py "##### ") line then Heading 5 (drop 6 line)
  else if str_startswith (py "#### ") line then Heading 4 (drop 5 line)
  else if str_startswith (py "### ") line then Heading 3 (drop 4 line)
  else if str_startswith (py "## ") line then Heading 2 (drop 3 line)
  else if str_startswith (py "# ") line then Heading 1 (drop 2 line)
  else Paragraph line.

(** The loop itself: [doc] is the list of blocks added so far. *)
Fixpoint export_lines (doc : list block) (lines : list (list N)) : list block :=
  match lines with
  | [] => doc
  | line :: rest => export_lines (doc ++ [export_line line]) rest
  end.

Definition export_docx (md : str) : list block :=
  export_lines [] (str_splitlines md).

(** ** The conversion flow (app.py, lines 70-158)

    What the user sees and what the program does to the outside world is
    recorded as a list of events, in order.  The MIME types of the downloads
    are left out; their file names are modelled further down. *)

Inductive event : Type :=
  | StError (msg : str)
  | StErrorFailed (e : exn)
  | StException (e : exn)
  | ReadUpload
  | ReadFile
  | B64Encode
  | MakeClient (key : str)
  | OcrProcess (include_image_base64 : bool)
  | StInfo (msg : str)
  | StSuccess
  | StPreview (md : str)
  | DownloadMarkdown (data : list N)
  | DownloadDocx (doc : list block)
  | Print (line : str).

Record upload : Type := { upload_name : str; upload_bytes : list N }.

(** The widgets of one script run. *)
Record widgets : Type := {
  api_key : str;
  keep_images : bool;
  pages_input : str;
  uploaded_file : option upload;
  convert_btn : bool
}.

Definition msg_upload_first : str := py "Please upload a PDF file first.".

Definition msg_missing_key : str :=
  py "Mistral API Key is missing. Provide it in the sidebar or set MISTRAL_API_KEY in your .env.".

Definition msg_key_not_set : str :=
  py "MISTRAL_API_KEY is not set. Create a .env with MISTRAL_API_KEY=<your_key> or set the environment variable.".

(** [x or y] on strings. *)
Definition str_or (x y : str) : str := if str_not x then y else x.

(** [os.getenv(name, default)]; [env] is the value of the variable, if set
    (after [load_dotenv()]). *)
Definition getenv_default (env : option (list N)) (default : str) : str :=
  match env with Some v => v | None => default end.

(** [key = api_key or os.getenv("MISTRAL_API_KEY", "")] *)
Definition resolved_key (w : widgets) (env : option (list N)) : str :=
  str_or (api_key w) (getenv_default env []).

Definition msg_showing (shown total : Z) : str :=
  py "Showing " ++ str_of_int shown ++ py " page(s) out of " ++
  str_of_int total ++ py " based on your selection.".

Definition msg_showing_all (total : Z) : str :=
  py "Showing all " ++ str_of_int total ++ py " page(s).".

(** [s.encode("utf-8")]: the bytes of the string (a [str] holds code
    points below 0x110000), or [UnicodeEncodeError] when it holds a
    surrogate. *)
Definition is_surrogate (c : char) : bool := (0xD800 <=? c) && (c <=? 0xDFFF).

Definition utf8_char (c : char) : list N :=
  if c <? 0x80 then [c]
  else if c <? 0x800 then [0xC0 + c / 0x40; 0x80 + c mod 0x40]
  else if c <? 0x10000 then
    [0xE0 + c / 0x1000; 0x80 + (c / 0x40) mod 0x40; 0x80 + c mod 0x40]
  else
    [0xF0 + c / 0x40000; 0x80 + (c / 0x1000) mod 0x40;
     0x80 + (c / 0x40) mod 0x40; 0x80 + c mod 0x40].

Fixpoint str_encode_utf8 (s : str) : result (list N) :=
  match s with
  | [] => Return []
  | c :: s' =>
      if is_surrogate c then Raise UnicodeEncodeError
      else
        bytes ← str_encode_utf8 s';
        Return (utf8_char c ++ bytes)
  end.

(** The body of the [try]: the events it gets to, and the exception that
    ends it, if any.  [service] is the outcome of the remote call; the
    parser and the encoding of the text can raise as well. *)
Definition convert_try (w : widgets) (key : str)
    (service : result (list page)) : list event * option exn :=
  let called :=
    [ReadUpload; B64Encode; MakeClient key; OcrProcess (keep_images w)] in
  match service with
  | Raise e => (called, Some e)
  | Return pages =>
      let total_pages := Z.of_nat (length pages) in
      match parse_page_selection (pages_input w) with
      | Raise e => (called, Some e)
      | Return sel_1based =>
          let idx := selected_idx sel_1based total_pages in
          let shown := md_pages idx pages in
          let md := md_text idx pages in
          let info :=
            match idx with
            | Some _ => msg_showing (Z.of_nat (length shown)) total_pages
            | None => msg_showing_all total_pages
            end in
          let shown_md := called ++ [StInfo info; StSuccess; StPreview md] in
          match str_encode_utf8 md with
          | Raise e => (shown_md, Some e)
          | Return md_bytes =>
              (shown_md ++
                 [DownloadMarkdown md_bytes; DownloadDocx (export_docx md)],
               None)
          end
      end
  end.

(** The block under [if convert_btn:]. *)
Definition app_convert (w : widgets) (env : option (list N))
    (service : result (list page)) : list event :=
  if convert_btn w then
    match uploaded_file w with
    | None => [StError msg_upload_first]
    | Some _ =>
        let key := resolved_key w env in
        if str_not key then [StError msg_missing_key]
        else
          match convert_try w key service with
          | (events, None) => events
          | (events, Some e) => events ++ [StErrorFailed e; StException e]
          end
    end
  else [].

(** ** The console script (docconv.py)

    [document] is the content of [document.pdf], if it can be read. *)

(** [not api_key] for [api_key = os.getenv("MISTRAL_API_KEY")] *)
Definition env_key_missing (env : option (list N)) : bool :=
  match env with Some k => str_not k | None => true end.

Definition docconv (document : option (list N)) (env : option (list N))
    (service : result (list page)) : list event * option exn :=
  match document with
  | None => ([], Some OSError)
  | Some _ =>
      let encoded := [ReadFile; B64Encode] in
      if env_key_missing env then
        (encoded, Some (RuntimeError msg_key_not_set))
      else
        let called :=
          encoded ++ [MakeClient (getenv_default env []); OcrProcess true] in
        match service with
        | Raise e => (called, Some e)
        | Return pages => (called ++ map (λ p, Print (markdown p)) pages, None)
        end
  end.

(** ** Download names (app.py, lines 121-153)

    [os.path.splitext] is [genericpath._splitext] with the separators of
    the platform: [/] alone on POSIX, [\] and [/] on Windows. *)

Definition extsep : char := 46.

(** [s.rfind(c)]: the last index of [c] in [s], or -1.  [i] is the index
    of the head of [s], [found] the last index seen so far. *)
Fixpoint rfind_from (c : char) (i : Z) (s : str) (found : Z) : Z :=
  match s with
  | [] => found
  | c' :: s' => rfind_from c (i + 1) s' (if c' =? c then i else found)
  end.

Definition str_rfind (c : char) (s : str) : Z := rfind_from c 0 s (-1).

(** [s[lo:hi]] for [0 <= lo]. *)
Definition str_slice (lo hi : Z) (s : str) : str :=
  take (Z.to_nat (hi - lo)) (drop (Z.to_nat lo) s).

Definition splitext_with (sep : char) (altsep : option N) (p : str)
  : list N * list N :=
  let sepIndex := str_rfind sep p in
  let sepIndex :=
    match altsep with
    | Some alt => Z.max sepIndex (str_rfind alt p)
    | None => sepIndex
    end in
  let dotIndex := str_rfind extsep p in
  if (sepIndex <? dotIndex)%Z then
    (* skip all leading dots *)
    if existsb (λ c, negb (c =? extsep)) (str_slice (sepIndex + 1) dotIndex p)
    then (take (Z.to_nat dotIndex) p, drop (Z.to_nat dotIndex) p)
    else (p, [])
  else (p, []).

(** [os.path.splitext(uploaded_file.name)[0] or "output"] *)
Definition base_name (sep : char) (altsep : option N) (name : str) : str :=
  str_or (fst (splitext_with sep altsep name)) (py "output").

(** [f"{base_name}.md"] and [f"{base_name}.docx"] *)
Definition md_file_name (sep : char) (altsep : option N) (name : str) : str :=
  base_name sep altsep name ++ py ".md".

Definition docx_file_name (sep : char) (altsep : option N) (name : str) : str :=
  base_name sep altsep name ++ py ".docx".

(** * Notions used to state the properties *)

(** ** Numerals

    [parse_page_selection] guards [int] with [str.isdigit] on the stripped
    token.  The two agree on a character when it is a decimal digit whenever
    it is a digit, and is skipped by [int] whenever [str.strip] strips it. *)

(** [s.isdecimal()]: a non-empty string of decimal digits. *)
Definition str_isdecimal (s : str) : bool :=
  negb (str_not s) && forallb isdecimal_char s.

Definition digit_value (c : char) : Z :=
  match decimal c with Some d => Z.of_N d | None => 0 end.

(** The number a string of decimal digits denotes, most significant digit
    first. *)
Definition numeral_from (acc : Z) (s : str) : Z :=
  fold_left (λ acc c, 10 * acc + digit_value c)%Z s acc.

Definition numeral_value (s : str) : Z := numeral_from 0 s.

(** A character that [int] skips at either end of its argument. *)
Definition int_pad (c : char) : bool := int_space (to_ascii_char c).

Definition int_safe_char (c : char) : bool :=
  implb (isdigit_char c) (isdecimal_char c) &&
  implb (isspace_char c) (int_pad c).

(** ** Selected pages

    A page the index set selects: every page when there is no index set. *)

Definition in_selection (idx : option (gset Z)) (p : page) : Prop :=
  match idx with
  | None => True
  | Some keep => index p ∈ keep
  end.

#[global] Instance in_selection_dec (idx : option (gset Z)) (p : page) :
  Decision (in_selection idx p).
Proof. destruct idx; simpl; apply _. Defined.

(** A string without surrogates, and its bytes. *)
Definition encodable (s : str) : bool :=
  forallb (λ c, negb (is_surrogate c)) s.

Definition utf8_bytes (s : str) : list N := concat (map utf8_char s).

(** ** Malformed tokens

    A token, once stripped, that is no digit string and, when cut at its
    first dash, no pair of digit strings. *)

Definition malformed (part : str) : bool :=
  negb (str_isdigit (str_strip part)) &&
  match str_split1 Chr.dash (str_strip part) with
  | [a; b] => negb (str_isdigit (str_strip a) && str_isdigit (str_strip b))
  | _ => true
  end.

(** ** Joined text

    The text before and after one part of a joined list: every earlier part
    is followed by the separator, every later part is preceded by it. *)

Definition join_before (sep : str) (parts : list (list N)) : str :=
  concat (map (λ part, part ++ sep) parts).

Definition join_after (sep : str) (parts : list (list N)) : str :=
  concat (map (λ part, sep ++ part) parts).

(** ** Heading markers: [k] hashes and a blank. *)

Definition marker (k : nat) : str := repeat Chr.hash k ++ [Chr.space].

(** ** Blocks read back

    The text of a block, and the Markdown line a block stands for. *)

Definition block_text (b : block) : str :=
  match b with
  | Heading _ text => text
  | Paragraph text => text
  end.

Definition block_line (b : block) : str :=
  match b with
  | Heading level text => marker level ++ text
  | Paragraph text => text
  end.

(** A string without line boundaries. *)
Definition one_line (s : str) : bool :=
  forallb (λ c, negb (is_linebreak c)) s.

(** * Properties *)

(** ** The result monad *)

Lemma bind_Return {A B} (m : result A) (f : A → result B) (b : B) :
  m ≫= f = Return b ↔ ∃ a, m = Return a ∧ f a = Return b.
Proof.
  destruct m as [a|e]; simpl.
  - split; [eauto | intros (a' & [= <-] & Hf); exact Hf].
  - split; [discriminate | intros (a' & [=] & _)].
Qed.

(** ** Stripping *)

Lemma forallb_rev {A} (f : A → bool) (l : list A) :
  forallb f (rev l) = forallb f l.
Proof.
  induction l as [|x l IH]; simpl; [done|].
  rewrite forallb_app, IH. simpl. rewrite andb_true_r. apply andb_comm.
Qed.

Lemma forallb_fmap {A B} (f : B → bool) (g : A → B) (l : list A) :
  forallb f (map g l) = forallb (λ x, f (g x)) l.
Proof. induction l as [|x l IH]; simpl; [done|]. by rewrite IH. Qed.

Section strip.
Variable ws : char → bool.

Lemma lstrip_with_all (s : str) :
  forallb ws s = true → lstrip_with ws s = [].
Proof.
  induction s as [|c s IH]; simpl; [done|].
  intros [Hc Hs]%andb_prop. rewrite Hc. auto.
Qed.

Lemma lstrip_with_keep (c : char) (s : str) :
  ws c = false → lstrip_with ws (c :: s) = c :: s.
Proof. intros Hc. simpl. by rewrite Hc. Qed.

Lemma lstrip_with_app (l s : str) :
  forallb ws l = true → lstrip_with ws (l ++ s) = lstrip_with ws s.
Proof.
  induction l as [|c l IH]; simpl; [done|].
  intros [Hc Hl]%andb_prop. rewrite Hc. auto.
Qed.

(** What is stripped on the left is white space, and what remains does
    not start with white space. *)
Lemma lstrip_with_split (s : str) :
  ∃ l, s = l ++ lstrip_with ws s ∧ forallb ws l = true.
Proof.
  induction s as [|c s (l & Hs & Hl)]; simpl.
  - by exists [].
  - destruct (ws c) eqn:Hc.
    + exists (c :: l). simpl. rewrite Hc, Hl. by rewrite Hs at 1.
    + by exists [].
Qed.

Lemma strip_with_all (s : str) :
  forallb ws s = true → strip_with ws s = [].
Proof. intros Hs. unfold strip_with. by rewrite (lstrip_with_all s). Qed.

(** A core that neither starts nor ends with white space survives
    stripping unchanged, whatever white space surrounds it. *)
Lemma strip_with_padded (l m r : str) (c d : char) :
  forallb ws l = true → forallb ws r = true →
  head m = Some c → ws c = false →
  last m = Some d → ws d = false →
  strip_with ws (l ++ m ++ r) = m.
Proof.
  intros Hl Hr Hc Hwc Hd Hwd. unfold strip_with.
  rewrite lstrip_with_app by done.
  destruct m as [|c' m]; [done|]. injection Hc as ->.
  rewrite <- app_comm_cons, lstrip_with_keep by done.
  rewrite app_comm_cons, rev_app_distr.
  rewrite lstrip_with_app by (by rewrite forallb_rev).
  destruct (rev (c :: m)) as [|d' m'] eqn:Hrev.
  { apply (f_equal (@length N)) in Hrev. rewrite length_rev in Hrev. done. }
  assert (d' = d) as ->.
  { apply (f_equal (@rev N)) in Hrev. rewrite rev_involutive in Hrev.
    rewrite Hrev in Hd. simpl in Hd. rewrite last_snoc in Hd. congruence. }
  rewrite lstrip_with_keep by done.
  by rewrite <- Hrev, rev_involutive.
Qed.

(** The shape of any string around its stripped core. *)
Lemma strip_with_split (s : str) :
  ∃ l r, s = l ++ strip_with ws s ++ r ∧
         forallb ws l = true ∧ forallb ws r = true.
Proof.
  unfold strip_with.
  destruct (lstrip_with_split s) as (l & Hs & Hl).
  destruct (lstrip_with_split (rev (lstrip_with ws s))) as (r & Hr & Hr').
  exists l, (rev r). repeat split; [|done|by rewrite forallb_rev].
  rewrite Hs at 1. f_equal.
  apply (f_equal (@rev N)) in Hr. rewrite rev_involutive, rev_app_distr in Hr.
  exact Hr.
Qed.
End strip.

(** ** Character classes *)

Ltac chr_unfold :=
  unfold Chr.tab, Chr.lf, Chr.vt, Chr.ff, Chr.cr, Chr.space, Chr.hash,
    Chr.plus, Chr.comma, Chr.dash, Chr.zero, Chr.nine, Chr.question,
    Chr.underscore in *.

(** Case analysis on every comparison of code points in the goal. *)
Ltac char_cases :=
  chr_unfold;
  repeat match goal with
    | |- context [N.eqb ?a ?b] => destruct (N.eqb_spec a b)
    | |- context [N.leb ?a ?b] => destruct (N.leb_spec a b)
    | |- context [N.ltb ?a ?b] => destruct (N.ltb_spec a b)
    end;
  simpl; try done; try lia.

Lemma decimal_in_spec (rs : list (N * N)) (c d : N) :
  decimal_in rs c = Some d →
  ∃ r, r ∈ rs ∧ in_range c r = true ∧ d = (c - fst r) mod 10.
Proof.
  induction rs as [|r rs IH]; simpl; [done|].
  destruct (in_range c r) eqn:Hr.
  - intros [= <-]. exists r. split; [left | done].
  - intros (r' & ? & ?)%IH. exists r'. split; [by right | done].
Qed.

Lemma decimal_lt_10 (c d : N) : decimal c = Some d → d < 10.
Proof.
  intros (r & _ & _ & ->)%decimal_in_spec. by apply N.mod_upper_bound.
Qed.

(** Below 127 the only decimal digits are the ASCII ones. *)
Lemma decimal_ranges_ascii :
  Forall (λ r, fst r < 127 → r = (48, 57)) decimal_ranges.
Proof. unfold decimal_ranges. repeat constructor; simpl; lia. Qed.

Lemma decimal_ascii (c d : N) : decimal c = Some d → c < 127 → c = 48 + d.
Proof.
  intros (r & Hr & Hin & ->)%decimal_in_spec Hc.
  pose proof decimal_ranges_ascii as Hall.
  rewrite Forall_forall in Hall. specialize (Hall r Hr).
  unfold in_range in Hin. apply andb_prop in Hin as [Hlo Hhi].
  apply N.leb_le in Hlo, Hhi.
  rewrite Hall in * by lia. simpl in *.
  rewrite N.mod_small by lia. lia.
Qed.

Lemma isspace_char_elem (c : N) :
  isspace_char c = true ↔ c ∈ whitespace_points.
Proof.
  unfold isspace_char. rewrite existsb_exists. split.
  - intros (w & Hw & ->%N.eqb_eq). by apply list_elem_of_In.
  - intros Hc. exists c. split; [by apply list_elem_of_In | apply N.eqb_refl].
Qed.

Lemma whitespace_not_digit :
  Forall (λ c, isdigit_char c = false) whitespace_points.
Proof. unfold whitespace_points. repeat constructor. Qed.

Lemma isspace_not_digit (c : N) :
  isspace_char c = true → isdigit_char c = false.
Proof.
  rewrite isspace_char_elem. pose proof whitespace_not_digit as Hall.
  rewrite Forall_forall in Hall. apply Hall.
Qed.

Lemma isdecimal_isdigit (c : N) :
  isdecimal_char c = true → isdigit_char c = true.
Proof. unfold isdigit_char. by intros ->. Qed.

Lemma isdecimal_char_Some (c : N) :
  isdecimal_char c = true ↔ ∃ d, decimal c = Some d.
Proof.
  unfold isdecimal_char. destruct (decimal c) as [d|]; split;
    try done; eauto. by intros [d [=]].
Qed.

(** A decimal digit of any script is turned into the ASCII digit of the
    same value. *)
Lemma to_ascii_char_decimal (c d : N) :
  decimal c = Some d → to_ascii_char c = Chr.zero + d.
Proof.
  intros Hd. unfold to_ascii_char.
  destruct (N.ltb_spec c 127) as [Hc|Hc].
  - by apply decimal_ascii.
  - destruct (isspace_char c) eqn:Hsp.
    + apply isspace_not_digit in Hsp.
      assert (isdigit_char c = true) as Hdig; [|congruence].
      apply isdecimal_isdigit, isdecimal_char_Some. eauto.
    + by rewrite Hd.
Qed.

(** ** Numerals and [int] *)

Lemma digits_value_numeral (s : str) (acc : Z) (us : bool) :
  forallb isdecimal_char s = true →
  s ≠ [] ∨ us = false →
  digits_value acc us (map to_ascii_char s) = Some (numeral_from acc s).
Proof.
  revert acc us. induction s as [|c s IH]; intros acc us Hs Hne; simpl.
  - destruct Hne as [?| ->]; done.
  - simpl in Hs. apply andb_prop in Hs as [Hc Hs].
    apply isdecimal_char_Some in Hc as [d Hd].
    pose proof (decimal_lt_10 _ _ Hd) as Hlt.
    rewrite (to_ascii_char_decimal _ _ Hd).
    unfold digit_value. rewrite Hd.
    replace (Chr.zero + d =? Chr.underscore) with false by char_cases.
    replace ((Chr.zero <=? Chr.zero + d) && (Chr.zero + d <=? Chr.nine))
      with true by char_cases.
    replace (Chr.zero + d - Chr.zero) with d by (chr_unfold; lia).
    apply IH; auto.
Qed.

Lemma int_space_digit (d : N) : d < 10 → int_space (Chr.zero + d) = false.
Proof. intros Hd. unfold int_space. simpl. char_cases. Qed.

(** A numeral has as many digits as characters. *)
Lemma count_digits_numeral (s : str) :
  forallb isdecimal_char s = true →
  count_digits (map to_ascii_char s) = Z.of_nat (length s).
Proof.
  intros Hs. unfold count_digits. f_equal.
  induction s as [|c s IH]; simpl; [done|].
  simpl in Hs. apply andb_prop in Hs as [Hc Hs].
  apply isdecimal_char_Some in Hc as [d Hd].
  pose proof (decimal_lt_10 _ _ Hd) as Hlt.
  rewrite (to_ascii_char_decimal _ _ Hd).
  replace (Chr.zero + d =? Chr.underscore) with false by char_cases.
  simpl. by rewrite IH.
Qed.

(** [int] reads a numeral of at most 4300 digits that is surrounded by
    characters it skips. *)
Lemma int_of_str_padded (l m r : str) :
  forallb int_pad l = true → forallb int_pad r = true →
  str_isdecimal m = true →
  (Z.of_nat (length m) ≤ int_max_str_digits)%Z →
  int_of_str (l ++ m ++ r) = Return (numeral_value m).
Proof.
  intros Hl Hr [Hne Hm]%andb_prop Hlen. unfold int_of_str.
  assert (∀ c, c ∈ m → ∃ d, to_ascii_char c = Chr.zero + d ∧ d < 10) as Hdig.
  { intros c Hc. rewrite forallb_forall in Hm.
    apply list_elem_of_In, Hm, isdecimal_char_Some in Hc as [d Hd].
    exists d. eauto using to_ascii_char_decimal, decimal_lt_10. }
  destruct m as [|c m]; [done|].
  destruct (Hdig c) as (d & Hcd & Hd); [left|].
  assert (∃ c', last (c :: m) = Some c') as [c' Hlast].
  { destruct (last (c :: m)) eqn:E; [eauto|]. by apply last_None in E. }
  destruct (Hdig c') as (d' & Hcd' & Hd').
  { apply last_Some in Hlast as [m' ->]. apply elem_of_app. right. left. }
  rewrite !map_app.
  rewrite (strip_with_padded int_space _ _ _ (Chr.zero + d) (Chr.zero + d')).
  - simpl map at 1. rewrite Hcd.
    replace (Chr.zero + d =? Chr.plus) with false by char_cases.
    replace (Chr.zero + d =? Chr.dash) with false by char_cases.
    rewrite digits_value_numeral, count_digits_numeral by auto.
    destruct (Z.ltb_spec int_max_str_digits (Z.of_nat (length (c :: m))));
      [lia|].
    unfold numeral_value. f_equal. lia.
  - by rewrite forallb_fmap.
  - by rewrite forallb_fmap.
  - simpl. by rewrite Hcd.
  - by apply int_space_digit.
  - apply last_Some in Hlast as [m' ->]. rewrite map_app. simpl.
    rewrite last_snoc. by rewrite Hcd'.
  - by apply int_space_digit.
Qed.

Lemma int_of_str_numeral (m : str) :
  str_isdecimal m = true →
  (Z.of_nat (length m) ≤ int_max_str_digits)%Z →
  int_of_str m = Return (numeral_value m).
Proof.
  intros Hm Hlen. rewrite <- (int_of_str_padded [] m []) by done.
  simpl. by rewrite app_nil_r.
Qed.

(** ** Splitting *)

Lemma str_split_no_sep (sep : char) (s : str) :
  existsb (N.eqb sep) s = false → str_split sep s = [s].
Proof.
  induction s as [|c s IH]; simpl; [done|].
  intros [Hc Hs]%orb_false_elim. rewrite N.eqb_sym, Hc. by rewrite IH.
Qed.

Lemma str_split1_at (sep : char) (a b : str) :
  existsb (N.eqb sep) a = false → str_split1 sep (a ++ sep :: b) = [a; b].
Proof.
  induction a as [|c a IH]; simpl.
  - by rewrite N.eqb_refl.
  - intros [Hc Ha]%orb_false_elim. rewrite N.eqb_sym, Hc. by rewrite IH.
Qed.

(** A string that contains the separator splits in two at its first
    occurrence, so the unpacking [a, b = part.split("-", 1)] succeeds. *)
Lemma str_split1_contains (sep : char) (s : str) :
  str_contains sep s = true →
  ∃ a b, str_split1 sep s = [a; b] ∧ s = a ++ sep :: b.
Proof.
  unfold str_contains. induction s as [|c s IH]; simpl; [done|].
  destruct (N.eqb_spec sep c) as [<-|Hne]; simpl.
  - intros _. exists [], s. by rewrite N.eqb_refl.
  - intros (a & b & Hab & ->)%IH. exists (c :: a), b.
    destruct (N.eqb_spec c sep) as [?|_]; [congruence|]. by rewrite Hab.
Qed.

Lemma str_split_forallb (P : char → bool) (sep : char) (s : str) :
  forallb P s = true →
  Forall (λ part, forallb P part = true) (str_split sep s).
Proof.
  induction s as [|c s IH]; simpl.
  - intros _. by repeat constructor.
  - intros [Hc Hs]%andb_prop. specialize (IH Hs).
    destruct (c =? sep); [by constructor|].
    destruct (str_split sep s) as [|cur rest].
    + repeat constructor. simpl. by rewrite Hc.
    + inversion IH; subst. constructor; [|done]. simpl. by rewrite Hc.
Qed.

Lemma strip_with_forallb (ws P : char → bool) (s : str) :
  forallb P s = true → forallb P (strip_with ws s) = true.
Proof.
  destruct (strip_with_split ws s) as (l & r & Hs & _).
  rewrite Hs at 1. rewrite !forallb_app.
  by intros [_ [? _]%andb_prop]%andb_prop.
Qed.

(** ** Numerals as tokens *)

Lemma isdecimal_not_space (c : N) :
  isdecimal_char c = true → isspace_char c = false.
Proof.
  intros Hc%isdecimal_isdigit. destruct (isspace_char c) eqn:Hsp; [|done].
  apply isspace_not_digit in Hsp. congruence.
Qed.

Lemma str_isdecimal_ends (m : str) :
  str_isdecimal m = true →
  ∃ c d, head m = Some c ∧ last m = Some d ∧
         isdecimal_char c = true ∧ isdecimal_char d = true.
Proof.
  intros [Hne Hm]%andb_prop. rewrite forallb_forall in Hm.
  destruct m as [|c m]; [done|].
  destruct (last (c :: m)) as [d|] eqn:Hlast; [|by apply last_None in Hlast].
  exists c, d. split_and!; [done|done| |].
  - apply Hm. by left.
  - apply Hm, list_elem_of_In. apply last_Some in Hlast as [m' ->].
    apply elem_of_app. right. left.
Qed.

Lemma str_strip_numeral (m : str) :
  str_isdecimal m = true → str_strip m = m.
Proof.
  intros (c & d & Hc & Hd & Hcd & Hdd)%str_isdecimal_ends.
  rewrite <- (app_nil_r m) at 1.
  apply (strip_with_padded isspace_char [] m [] c d);
    auto using isdecimal_not_space.
Qed.

Lemma str_isdecimal_isdigit (m : str) :
  str_isdecimal m = true → str_isdigit m = true.
Proof.
  unfold str_isdecimal, str_isdigit. intros [-> Hm]%andb_prop. simpl.
  rewrite forallb_forall in *. auto using isdecimal_isdigit.
Qed.

Lemma str_isdecimal_no (sep : char) (m : str) :
  isdecimal_char sep = false →
  str_isdecimal m = true → existsb (N.eqb sep) m = false.
Proof.
  intros Hsep [_ Hm]%andb_prop. rewrite forallb_forall in Hm.
  destruct (existsb (N.eqb sep) m) eqn:E; [|done].
  apply existsb_exists in E as (c & Hc & <-%N.eqb_eq).
  apply Hm in Hc. congruence.
Qed.

(** ** Ranges *)

Lemma elem_of_py_range (start stop p : Z) :
  p ∈ py_range start stop ↔ (start ≤ p < stop)%Z.
Proof.
  unfold py_range. rewrite elem_of_list_to_set, elem_of_seqZ. lia.
Qed.

Lemma py_range_nonempty (start stop : Z) :
  (start < stop)%Z → py_range start stop ≠ ∅.
Proof.
  intros Hlt Hempty. assert (start ∈ py_range start stop) as Hin.
  { apply elem_of_py_range. lia. }
  rewrite Hempty in Hin. by apply not_elem_of_empty in Hin.
Qed.

(** ** One token *)

Lemma str_strip_range_token (a b : str) :
  str_isdecimal a = true → str_isdecimal b = true →
  str_strip (a ++ Chr.dash :: b) = a ++ Chr.dash :: b.
Proof.
  intros Ha Hb.
  destruct (str_isdecimal_ends a Ha) as (c & _ & Hc & _ & Hcd & _).
  destruct (str_isdecimal_ends b Hb) as (_ & d & _ & Hd & _ & Hdd).
  rewrite <- (app_nil_r (a ++ _)) at 1.
  apply (strip_with_padded isspace_char [] _ [] c d);
    auto using isdecimal_not_space.
  - destruct a; [done|]. by simplify_eq/=.
  - rewrite last_app_cons, last_cons. by rewrite Hd.
Qed.

(** A token [a-b] of two numerals, of at most 4300 digits each, adds the
    range between their values, whichever of the two is larger. *)
Lemma parse_part_range (pages : gset Z) (a b : str) :
  str_isdecimal a = true → str_isdecimal b = true →
  (Z.of_nat (length a) ≤ int_max_str_digits)%Z →
  (Z.of_nat (length b) ≤ int_max_str_digits)%Z →
  parse_part pages (a ++ Chr.dash :: b) =
    Return (pages ∪ py_range (Z.min (numeral_value a) (numeral_value b))
                             (Z.max (numeral_value a) (numeral_value b) + 1)).
Proof.
  intros Ha Hb Hla Hlb. unfold parse_part.
  rewrite str_strip_range_token by done.
  replace (str_not (a ++ Chr.dash :: b)) with false by (by destruct a).
  replace (str_contains Chr.dash (a ++ Chr.dash :: b)) with true.
  2:{ unfold str_contains. rewrite existsb_app. simpl.
      by rewrite orb_true_r. }
  rewrite str_split1_at by (by apply str_isdecimal_no).
  rewrite !str_strip_numeral, !str_isdecimal_isdigit by done. simpl.
  rewrite !int_of_str_numeral by done. simpl.
  destruct (Z.ltb_spec (numeral_value b) (numeral_value a)).
  - by rewrite Z.min_r, Z.max_l by lia.
  - by rewrite Z.min_l, Z.max_r by lia.
Qed.

(** A malformed token leaves the set as it is. *)
Lemma parse_part_malformed (pages : gset Z) (part : str) :
  malformed part = true → parse_part pages part = Return pages.
Proof.
  intros [Hdigit Hpair]%andb_prop. apply negb_true_iff in Hdigit.
  unfold parse_part.
  destruct (str_not (str_strip part)); [done|].
  destruct (str_contains Chr.dash (str_strip part)) eqn:Hdash.
  - apply str_split1_contains in Hdash as (a & b & Hab & _).
    rewrite Hab in *. apply negb_true_iff in Hpair. by rewrite Hpair.
  - by rewrite Hdigit.
Qed.

Lemma parse_parts_malformed (pages : gset Z) (parts : list (list N)) :
  forallb malformed parts = true → parse_parts pages parts = Return pages.
Proof.
  induction parts as [|part parts IH]; simpl; [done|].
  intros [Hpart Hparts]%andb_prop.
  rewrite parse_part_malformed by done. simpl. auto.
Qed.

(** When every token is malformed the parser returns [None]. *)
Lemma parse_all_malformed (s : str) :
  forallb malformed (str_split Chr.comma (str_strip s)) = true →
  parse_page_selection s = Return None.
Proof.
  intros Hall. unfold parse_page_selection.
  destruct (str_not s); [done|].
  destruct (str_not (str_strip s)); [done|].
  by rewrite parse_parts_malformed.
Qed.

(** ** Inputs on which [int] agrees with the guards *)

Lemma forallb_impl2 {A} (P Q R : A → bool) (l : list A) :
  (∀ x, P x = true → Q x = true → R x = true) →
  forallb P l = true → forallb Q l = true → forallb R l = true.
Proof.
  intros HPQ. rewrite !forallb_forall. auto.
Qed.

Lemma strip_with_length (ws : char → bool) (s : str) :
  (length (strip_with ws s) ≤ length s)%nat.
Proof.
  destruct (strip_with_split ws s) as (l & r & Hs & _).
  rewrite Hs at 2. rewrite !length_app. lia.
Qed.

Lemma str_split_length (sep : char) (s : str) :
  Forall (λ part, (length part ≤ length s)%nat) (str_split sep s).
Proof.
  induction s as [|c s IH]; simpl; [by repeat constructor|].
  assert (Forall (λ part, (length part ≤ S (length s))%nat)
            (str_split sep s)) as IH'
    by (eapply Forall_impl; [exact IH | simpl; lia]).
  destruct (c =? sep); [constructor; [simpl; lia | done]|].
  destruct (str_split sep s) as [|cur rest].
  - constructor; [simpl; lia | constructor].
  - inversion IH; subst. inversion IH'; subst.
    constructor; [simpl; lia | done].
Qed.

Lemma int_of_str_guarded (a : str) :
  forallb int_safe_char a = true →
  (Z.of_nat (length a) ≤ int_max_str_digits)%Z →
  str_isdigit (str_strip a) = true →
  int_of_str a = Return (numeral_value (str_strip a)).
Proof.
  intros Hsafe Hlen [Hne Hdig]%andb_prop.
  pose proof (strip_with_length isspace_char a) as Hstrip.
  fold (str_strip a) in Hstrip.
  destruct (strip_with_split isspace_char a) as (l & r & Ha & Hl & Hr).
  fold (str_strip a) in Ha. rewrite Ha in Hsafe.
  rewrite !forallb_app in Hsafe.
  apply andb_prop in Hsafe as [Hsl [Hsm Hsr]%andb_prop].
  assert (∀ c, int_safe_char c = true → isspace_char c = true →
               int_pad c = true) as Hpad.
  { intros c [_ Hc]%andb_prop Hsp. by rewrite Hsp in Hc. }
  rewrite Ha at 1. apply int_of_str_padded.
  - by apply (forallb_impl2 int_safe_char isspace_char).
  - by apply (forallb_impl2 int_safe_char isspace_char).
  - unfold str_isdecimal. rewrite Hne. simpl.
    apply (forallb_impl2 int_safe_char isdigit_char); [|done|done].
    intros c [Hc _]%andb_prop Hd. by rewrite Hd in Hc.
  - lia.
Qed.

Lemma parse_part_safe (pages : gset Z) (part : str) :
  forallb int_safe_char part = true →
  (Z.of_nat (length part) ≤ int_max_str_digits)%Z →
  ∃ pages', parse_part pages part = Return pages'.
Proof.
  intros Hsafe Hlen. unfold parse_part.
  apply (strip_with_forallb isspace_char) in Hsafe.
  pose proof (strip_with_length isspace_char part) as Hstrip.
  fold (str_strip part) in Hsafe, Hstrip.
  destruct (str_not (str_strip part)); [eauto|].
  destruct (str_contains Chr.dash (str_strip part)) eqn:Hdash.
  - apply str_split1_contains in Hdash as (a & b & -> & Hab).
    rewrite Hab, forallb_app in Hsafe. simpl in Hsafe.
    apply andb_prop in Hsafe as [Ha Hb].
    rewrite Hab, length_app in Hstrip. simpl in Hstrip.
    destruct (str_isdigit (str_strip a)) eqn:Hda; [|simpl; eauto].
    destruct (str_isdigit (str_strip b)) eqn:Hdb; [|simpl; eauto].
    simpl. rewrite !int_of_str_guarded by (done || lia). simpl.
    destruct (_ <? _)%Z; eauto.
  - destruct (str_isdigit (str_strip part)) eqn:Hd; [|eauto].
    rewrite int_of_str_numeral; [simpl; eauto | | lia].
    apply andb_prop in Hd as [Hne Hd].
    unfold str_isdecimal. rewrite Hne. simpl.
    apply (forallb_impl2 int_safe_char isdigit_char); [|done|done].
    intros c [Hc _]%andb_prop Hdc. by rewrite Hdc in Hc.
Qed.

Lemma parse_parts_safe (parts : list (list N)) (pages : gset Z) :
  Forall (λ part, forallb int_safe_char part = true ∧
                  (Z.of_nat (length part) ≤ int_max_str_digits)%Z) parts →
  ∃ pages', parse_parts pages parts = Return pages'.
Proof.
  intros Hall. revert pages.
  induction Hall as [|part rest [Hpart Hlen] _ IH]; intros pages; simpl;
    [eauto|].
  destruct (parse_part_safe pages part Hpart Hlen) as [pages' ->]. simpl.
  apply IH.
Qed.

(** The parser returns on every input of at most 4300 characters, all of
    them safe. *)
Lemma parse_page_selection_safe (s : str) :
  forallb int_safe_char s = true →
  (Z.of_nat (length s) ≤ int_max_str_digits)%Z →
  ∃ r, parse_page_selection s = Return r.
Proof.
  intros Hsafe Hlen. unfold parse_page_selection.
  destruct (str_not s); [eauto|].
  destruct (str_not (str_strip s)); [eauto|].
  destruct (parse_parts_safe (str_split Chr.comma (str_strip s)) ∅)
    as [pages ->]; [|simpl; eauto].
  apply Forall_and. split.
  - by apply str_split_forallb, strip_with_forallb.
  - eapply Forall_impl; [apply str_split_length|]. simpl. intros part Hpart.
    pose proof (strip_with_length isspace_char s). unfold str_strip in *. lia.
Qed.

Lemma other_digit_ranges_high :
  Forall (λ r, 128 ≤ fst r) other_digit_ranges.
Proof. unfold other_digit_ranges. repeat constructor; simpl; lia. Qed.

(** Every ASCII character is safe, the four separator controls
    U+001C..U+001F apart: [str.strip] strips them, [int] does not. *)
Lemma ascii_int_safe (c : N) :
  c < 128 → ¬ (28 ≤ c ≤ 31) → int_safe_char c = true.
Proof.
  intros Hc Hsep. unfold int_safe_char. apply andb_true_intro. split.
  - unfold isdigit_char. destruct (isdecimal_char c); [done|].
    replace (existsb (in_range c) other_digit_ranges) with false; [done|].
    symmetry. apply not_true_is_false.
    intros (r & Hr & [Hlo _]%andb_prop)%existsb_exists.
    pose proof other_digit_ranges_high as Hall.
    rewrite Forall_forall in Hall. apply list_elem_of_In, Hall in Hr.
    apply N.leb_le in Hlo. lia.
  - destruct (isspace_char c) eqn:Hsp; [simpl|done].
    apply isspace_char_elem in Hsp. unfold whitespace_points in Hsp.
    repeat (apply elem_of_cons in Hsp as [->|Hsp]; [try done; lia|]).
    by apply elem_of_nil in Hsp.
Qed.


(** ** The parser on whole inputs *)

Lemma parse_parts_singleton (pages : gset Z) (part : str) :
  parse_parts pages [part] = parse_part pages part.
Proof. simpl. by destruct (parse_part pages part). Qed.

Lemma set_or_None_spec (pages : gset Z) (r : option (gset Z)) :
  set_or_None pages = r →
  (r = None ∧ pages = ∅) ∨ (r = Some pages ∧ pages ≠ ∅).
Proof. unfold set_or_None. case_decide; intros <-; auto. Qed.

(** Whatever the parser returns is [None] or a set with an element. *)
Lemma parse_page_selection_returns (s : str) (r : option (gset Z)) :
  parse_page_selection s = Return r →
  r = None ∨ ∃ pages, r = Some pages ∧ pages ≠ ∅.
Proof.
  unfold parse_page_selection.
  destruct (str_not s); [intros [= <-]; by left|].
  destruct (str_not (str_strip s)); [intros [= <-]; by left|].
  intros (pages & _ & [= Hr])%bind_Return.
  apply set_or_None_spec in Hr as [[-> _]|[-> Hne]]; [by left|].
  right. eauto.
Qed.

(** ** Decimal numerals of integers *)





(** ** The page filter and the aggregation loop *)

Lemma elem_of_index_set (pages : gset Z) (total_pages i : Z) :
  i ∈ index_set pages total_pages ↔
  ∃ p, p ∈ pages ∧ (1 ≤ p ≤ total_pages)%Z ∧ i = (p - 1)%Z.
Proof.
  unfold index_set. rewrite elem_of_map. split.
  - intros (p & -> & [Hp Hin]%elem_of_filter). eauto.
  - intros (p & Hin & Hp & ->). exists p. split; [done|].
    by apply elem_of_filter.
Qed.

Lemma selected_idx_nonempty (pages : gset Z) (total_pages : Z) :
  pages ≠ ∅ →
  selected_idx (Some pages) total_pages = Some (index_set pages total_pages).
Proof.
  intros Hne. unfold selected_idx, sel_truthy.
  by rewrite bool_decide_eq_false_2.
Qed.

Lemma md_pages_loop_spec (idx : option (gset Z)) (pages : list page)
    (acc : list (list N)) :
  md_pages_loop idx pages acc =
    acc ++ map page_block (List.filter (page_selected idx) pages).
Proof.
  revert acc. induction pages as [|p pages IH]; intros acc; simpl.
  - by rewrite app_nil_r.
  - rewrite IH. destruct (page_selected idx p); simpl; [|done].
    by rewrite <- app_assoc.
Qed.

Lemma md_pages_spec (idx : option (gset Z)) (pages : list page) :
  md_pages idx pages = map page_block (List.filter (page_selected idx) pages).
Proof. unfold md_pages. by rewrite md_pages_loop_spec. Qed.

Lemma md_pages_none_selected (pages : list page) :
  md_pages (Some ∅) pages = [].
Proof.
  rewrite md_pages_spec. induction pages as [|p pages IH]; simpl; [done|].
  by rewrite bool_decide_eq_false_2 by set_solver.
Qed.

(** ** Joining *)

Lemma str_join_cons (sep part : str) (parts : list (list N)) :
  str_join sep (part :: parts) = part ++ join_after sep parts.
Proof.
  revert part. induction parts as [|q parts IH]; intros part.
  - simpl. by rewrite app_nil_r.
  - change (str_join sep (part :: q :: parts))
      with (part ++ sep ++ str_join sep (q :: parts)).
    rewrite IH. unfold join_after. simpl. by rewrite <- app_assoc.
Qed.

Lemma join_after_app (sep part : str) (before after : list (list N)) :
  join_after sep (before ++ part :: after) =
    sep ++ join_before sep before ++ part ++ join_after sep after.
Proof.
  unfold join_after, join_before.
  induction before as [|q before IH]; simpl.
  - by rewrite <- app_assoc.
  - rewrite IH. by rewrite <- !app_assoc.
Qed.

Lemma str_join_app (sep part : str) (before after : list (list N)) :
  str_join sep (before ++ part :: after) =
    join_before sep before ++ part ++ join_after sep after.
Proof.
  destruct before as [|q before]; simpl app.
  - apply str_join_cons.
  - rewrite str_join_cons, join_after_app. unfold join_before. simpl.
    by rewrite <- !app_assoc.
Qed.


(** ** Heading markers *)

Lemma str_startswith_spec (prefix s : str) :
  str_startswith prefix s = true ↔ ∃ rest, s = prefix ++ rest.
Proof.
  revert s. induction prefix as [|p prefix IH]; intros s; simpl.
  - split; [eauto|done].
  - destruct s as [|c s]; [split; [done | by intros [? [=]]]|].
    rewrite andb_true_iff, N.eqb_eq, IH. split.
    + intros [-> [rest ->]]. eauto.
    + intros [rest [= -> ->]]. eauto.
Qed.

(** A line carries at most one marker: after [k] hashes comes a blank,
    which is not a hash. *)
Lemma marker_unique (j k : nat) (line : str) :
  str_startswith (marker j) line = true →
  str_startswith (marker k) line = true → j = k.
Proof.
  rewrite !str_startswith_spec. intros [r1 ->] [r2 Heq]. unfold marker in Heq.
  revert k Heq. induction j as [|j IH]; intros [|k]; simpl; try done.
  intros [= Heq]. f_equal. by apply IH.
Qed.

Lemma marker_no_hash (k : nat) (line : str) :
  (1 ≤ k)%nat → head line ≠ Some Chr.hash →
  str_startswith (marker k) line = false.
Proof.
  intros Hk Hhead. apply not_true_is_false.
  intros [rest ->]%str_startswith_spec. destruct k; [lia|]. by apply Hhead.
Qed.

Lemma export_lines_spec (doc : list block) (lines : list (list N)) :
  export_lines doc lines = doc ++ map export_line lines.
Proof.
  revert doc. induction lines as [|l lines IH]; intros doc; simpl.
  - by rewrite app_nil_r.
  - rewrite IH. by rewrite <- app_assoc.
Qed.

(** The cascade of [startswith] tests, with the markers named. *)
Lemma export_line_cases (line : str) :
  export_line line =
    if str_startswith (marker 6) line then Heading 6 (drop 7 line)
    else if str_startswith (marker 5) line then Heading 5 (drop 6 line)
    else if str_startswith (marker 4) line then Heading 4 (drop 5 line)
    else if str_startswith (marker 3) line then Heading 3 (drop 4 line)
    else if str_startswith (marker 2) line then Heading 2 (drop 3 line)
    else if str_startswith (marker 1) line then Heading 1 (drop 2 line)
    else Paragraph line.
Proof. reflexivity. Qed.

Lemma export_line_heading (line : str) (k : nat) :
  (1 ≤ k ≤ 6)%nat → str_startswith (marker k) line = true →
  export_line line = Heading k (drop (S k) line).
Proof.
  intros Hk Hmark. rewrite export_line_cases.
  repeat match goal with
    | |- context [str_startswith (marker ?j) line] =>
        destruct (str_startswith (marker j) line) eqn:?;
        [by rewrite (marker_unique k j line)|]
    end.
  assert (k = 1 ∨ k = 2 ∨ k = 3 ∨ k = 4 ∨ k = 5 ∨ k = 6)%nat
    as Hcases by lia.
  destruct_or!; subst; congruence.
Qed.

Lemma export_line_paragraph (line : str) :
  (∀ k, (1 ≤ k ≤ 6)%nat → str_startswith (marker k) line = false) →
  export_line line = Paragraph line.
Proof.
  intros Hnone. rewrite export_line_cases. by rewrite !Hnone by lia.
Qed.

(** Every line falls under one of the two cases. *)
Lemma export_line_total (line : str) :
  (∃ k, (1 ≤ k ≤ 6)%nat ∧ str_startswith (marker k) line = true) ∨
  (∀ k, (1 ≤ k ≤ 6)%nat → str_startswith (marker k) line = false).
Proof.
  destruct (str_startswith (marker 1) line) eqn:H1; [left; exists 1%nat; auto with lia|].
  destruct (str_startswith (marker 2) line) eqn:H2; [left; exists 2%nat; auto with lia|].
  destruct (str_startswith (marker 3) line) eqn:H3; [left; exists 3%nat; auto with lia|].
  destruct (str_startswith (marker 4) line) eqn:H4; [left; exists 4%nat; auto with lia|].
  destruct (str_startswith (marker 5) line) eqn:H5; [left; exists 5%nat; auto with lia|].
  destruct (str_startswith (marker 6) line) eqn:H6; [left; exists 6%nat; auto with lia|].
  right. intros k Hk.
  assert (k = 1 ∨ k = 2 ∨ k = 3 ∨ k = 4 ∨ k = 5 ∨ k = 6)%nat
    as Hcases by lia.
  destruct_or!; by subst.
Qed.

(** ** The page test against the selection *)



(** * The claims *)

(** C5. For every input string that is empty or consists only of white
    space, [parse_page_selection] returns [None], the signal for "all
    pages", and not a set. *)
Theorem parse_blank_is_all_pages (s : str) :
  forallb isspace_char s = true →
  parse_page_selection s = Return None.
Proof.
  intros Hs. unfold parse_page_selection.
  destruct (str_not s); [done|].
  unfold str_strip. by rewrite strip_with_all.
Qed.

Lemma parse_blank_is_all_pages_witness :
  parse_page_selection [] = Return None ∧
  parse_page_selection [Chr.space; Chr.tab; 0xa0; Chr.lf] = Return None.
Proof.
  split; apply parse_blank_is_all_pages; reflexivity.
Defined.

(** C7. For the input ["1,3-5,8"], [parse_page_selection] returns exactly
    the set {1, 3, 4, 5, 8}. *)
Theorem parse_1_3to5_8 :
  parse_page_selection (py "1,3-5,8") =
    Return (Some ({[1; 3; 4; 5; 8]} : gset Z))%Z.
Proof. vm_compute. reflexivity. Qed.

(** C9. For every input string, what [parse_page_selection] returns is
    either [None] or a non-empty set, never the empty set; so the
    truthiness test at the use site holds exactly when the result is a set.
    The parser does return on every input of at most 4300 characters that
    are all safe for [int], in particular on ASCII text of that length
    without the controls U+001C..U+001F. *)
Theorem parse_never_returns_empty_set (s : str) :
  parse_page_selection s ≠ Return (Some ∅) ∧
  (∀ r, parse_page_selection s = Return r →
        (r = None ∨ ∃ pages, r = Some pages ∧ pages ≠ ∅) ∧
        (sel_truthy r = true ↔ ∃ pages, r = Some pages)) ∧
  (forallb int_safe_char s = true →
   (Z.of_nat (length s) ≤ int_max_str_digits)%Z →
   ∃ r, parse_page_selection s = Return r) ∧
  (Forall (λ c, c < 128 ∧ ¬ (28 ≤ c ≤ 31)) s →
   (Z.of_nat (length s) ≤ int_max_str_digits)%Z →
   ∃ r, parse_page_selection s = Return r).
Proof.
  split_and!.
  - intros [[=]|(pages & [= <-] & Hne)]%parse_page_selection_returns. done.
  - intros r Hr. pose proof (parse_page_selection_returns s r Hr) as Hcases.
    split; [done|].
    destruct Hcases as [->|(pages & -> & Hne)]; simpl.
    + split; [done | by intros [? [=]]].
    + rewrite bool_decide_eq_false_2 by done. split; eauto.
  - apply parse_page_selection_safe.
  - intros Hs Hlen. apply parse_page_selection_safe; [|done].
    apply forallb_forall.
    intros c Hc%list_elem_of_In. rewrite Forall_forall in Hs.
    destruct (Hs c Hc). by apply ascii_int_safe.
Qed.

Lemma parse_never_returns_empty_set_witness :
  (sel_truthy (Some ({[50%Z]} : gset Z)) = true ↔
     ∃ pages, Some ({[50%Z]} : gset Z) = Some pages) ∧
  (∃ r, parse_page_selection (py "3 - 5, x") = Return r) ∧
  (∃ r, parse_page_selection (py "7,,") = Return r).
Proof.
  split_and!.
  - destruct (parse_never_returns_empty_set (py "50")) as (_ & H & _ & _).
    apply (H (Some {[50%Z]})). vm_compute. reflexivity.
  - destruct (parse_never_returns_empty_set (py "3 - 5, x")) as (_ & _ & H & _).
    apply H; [reflexivity | by vm_compute].
  - destruct (parse_never_returns_empty_set (py "7,,")) as (_ & _ & _ & H).
    apply H; [repeat constructor; simpl; lia | by vm_compute].
Defined.

(** C4. For every range token [a-b] whose two parts are digit strings with
    a > b, each within the 4300 digits [int] accepts, the parser adds
    exactly the inclusive range from min(a,b) to max(a,b), that is from b to
    a, to the set: both as the contribution of the token to the set built
    so far and as the result for the token alone. *)
Theorem reversed_range_is_normalized (a b : str) (pages : gset Z) :
  str_isdecimal a = true → str_isdecimal b = true →
  (Z.of_nat (length a) ≤ int_max_str_digits)%Z →
  (Z.of_nat (length b) ≤ int_max_str_digits)%Z →
  (numeral_value a > numeral_value b)%Z →
  Z.min (numeral_value a) (numeral_value b) = numeral_value b ∧
  Z.max (numeral_value a) (numeral_value b) = numeral_value a ∧
  parse_part pages (a ++ Chr.dash :: b) =
    Return (pages ∪ py_range (Z.min (numeral_value a) (numeral_value b))
                             (Z.max (numeral_value a) (numeral_value b) + 1)) ∧
  (∀ p, p ∈ py_range (Z.min (numeral_value a) (numeral_value b))
                     (Z.max (numeral_value a) (numeral_value b) + 1) ↔
        (Z.min (numeral_value a) (numeral_value b) ≤ p
           ≤ Z.max (numeral_value a) (numeral_value b))%Z) ∧
  parse_page_selection (a ++ Chr.dash :: b) =
    Return (Some (py_range (Z.min (numeral_value a) (numeral_value b))
                           (Z.max (numeral_value a) (numeral_value b) + 1))).
Proof.
  intros Ha Hb Hla Hlb Hgt.
  split_and!; [lia | lia | by apply parse_part_range | |].
  - intros p. rewrite elem_of_py_range. lia.
  - unfold parse_page_selection.
    replace (str_not (a ++ Chr.dash :: b)) with false by (by destruct a).
    rewrite str_strip_range_token by done.
    replace (str_not (a ++ Chr.dash :: b)) with false by (by destruct a).
    rewrite str_split_no_sep.
    2:{ rewrite existsb_app. simpl.
        by rewrite !(str_isdecimal_no Chr.comma). }
    rewrite parse_parts_singleton, parse_part_range by done. simpl.
    rewrite (left_id_L ∅ (∪)). unfold set_or_None.
    rewrite decide_False; [done|]. apply py_range_nonempty. lia.
Qed.

Lemma reversed_range_is_normalized_witness :
  parse_page_selection (py "5-3") = Return (Some (py_range 3 6)) ∧
  parse_part {[9%Z]} (py "12-10") = Return ({[9%Z]} ∪ py_range 10 13).
Proof.
  split.
  - apply (reversed_range_is_normalized (py "5") (py "3") ∅);
      [reflexivity | reflexivity | by vm_compute | by vm_compute
       | reflexivity].
  - apply (reversed_range_is_normalized (py "12") (py "10") {[9%Z]});
      [reflexivity | reflexivity | by vm_compute | by vm_compute
       | reflexivity].
Defined.

(** C6. The claim is that [parse_page_selection] never raises and skips
    every malformed token.  On the one-character input U+00B2 (superscript
    two) the guard [str.isdigit] lets the token through and [int] rejects
    it: the parser raises [ValueError].  The same happens when one of
    U+001C..U+001F, which [str.strip] strips and [int] does not skip, sits
    between a number and the dash. *)
Theorem parse_raises_on_superscript_digit :
  str_isdigit [0xb2] = true ∧
  int_of_str [0xb2] = Raise ValueError ∧
  parse_page_selection [0xb2] = Raise ValueError ∧
  parse_page_selection (py "3" ++ [0x1c] ++ py "-5") = Raise ValueError.
Proof. split_and!; reflexivity. Qed.

(** C1. For every set the parser returns and every page count N, the index
    set used for the output holds exactly the p - 1 for the selected pages
    p with 1 <= p <= N.  A selected page outside 1..N is dropped, and the
    filter is a total function: it produces a set and cannot raise. *)
Theorem filter_keeps_pages_in_bounds (s : str) (pages : gset Z) (total : Z) :
  parse_page_selection s = Return (Some pages) →
  ∃ idx, selected_idx (Some pages) total = Some idx ∧
    (∀ i, i ∈ idx ↔ ∃ p, p ∈ pages ∧ (1 ≤ p ≤ total)%Z ∧ i = (p - 1)%Z) ∧
    (∀ p, p ∈ pages → ¬ (1 ≤ p ≤ total)%Z → (p - 1)%Z ∉ idx).
Proof.
  intros [[=]|(pages' & [= <-] & Hne)]%parse_page_selection_returns.
  exists (index_set pages total). split_and!.
  - by apply selected_idx_nonempty.
  - apply elem_of_index_set.
  - intros p _ Hout (p' & _ & Hp' & Heq)%elem_of_index_set.
    assert (p' = p) as -> by lia. done.
Qed.

Lemma filter_keeps_pages_in_bounds_witness :
  ∃ idx, selected_idx (Some ({[1; 3; 4; 5; 8]} : gset Z))%Z 4 = Some idx ∧
    (∀ i, i ∈ idx ↔
       ∃ p, p ∈ ({[1; 3; 4; 5; 8]} : gset Z)%Z ∧ (1 ≤ p ≤ 4)%Z ∧
            i = (p - 1)%Z) ∧
    (∀ p, p ∈ ({[1; 3; 4; 5; 8]} : gset Z)%Z → ¬ (1 ≤ p ≤ 4)%Z →
          (p - 1)%Z ∉ idx).
Proof.
  apply (filter_keeps_pages_in_bounds (py "1,3-5,8")).
  vm_compute. reflexivity.
Defined.

(** C10. If the parser returns a set and every page in it is out of range
    for the document (as for ["50"] on three pages), the index set is the
    empty set, not the "all pages" value [None], and the output has no
    page at all: no block, an empty Markdown text, and the message of a
    filtered selection with a count of 0. *)
Theorem out_of_range_selection_shows_no_page
    (w : widgets) (key : str) (sel : gset Z) (pages : list page) :
  parse_page_selection (pages_input w) = Return (Some sel) →
  (∀ p, p ∈ sel → ¬ (1 ≤ p ≤ Z.of_nat (length pages))%Z) →
  selected_idx (Some sel) (Z.of_nat (length pages)) = Some ∅ ∧
  md_pages (Some ∅) pages = [] ∧
  md_text (Some ∅) pages = [] ∧
  convert_try w key (Return pages) =
    ([ReadUpload; B64Encode; MakeClient key; OcrProcess (keep_images w);
      StInfo (msg_showing 0 (Z.of_nat (length pages))); StSuccess;
      StPreview []; DownloadMarkdown []; DownloadDocx []], None).
Proof.
  intros Hparse Hout.
  assert (selected_idx (Some sel) (Z.of_nat (length pages)) = Some ∅) as Hidx.
  { destruct (parse_page_selection_returns _ _ Hparse)
      as [[=]|(sel' & [= <-] & Hne)].
    rewrite selected_idx_nonempty by done. f_equal.
    apply set_eq. intros i. rewrite elem_of_index_set. split.
    - intros (p & Hp & Hin & _). by destruct (Hout p Hp).
    - by intros ?%not_elem_of_empty. }
  assert (md_text (Some ∅) pages = []) as Htext.
  { unfold md_text. by rewrite md_pages_none_selected. }
  split_and!; [done | apply md_pages_none_selected | done |].
  unfold convert_try. rewrite Hparse, Hidx, Htext.
  by rewrite md_pages_none_selected.
Qed.

Lemma out_of_range_selection_shows_no_page_witness :
  selected_idx (Some {[50%Z]}) 3 = Some ∅ ∧
  md_text (Some ∅)
    [ {| index := 0; markdown := py "a" |};
      {| index := 1; markdown := py "b" |};
      {| index := 2; markdown := py "c" |} ] = [].
Proof.
  pose (w := {| api_key := []; keep_images := false; pages_input := py "50";
                uploaded_file := None; convert_btn := true |}).
  destruct (out_of_range_selection_shows_no_page w (py "k") {[50%Z]}
    [ {| index := 0; markdown := py "a" |};
      {| index := 1; markdown := py "b" |};
      {| index := 2; markdown := py "c" |} ]) as (H1 & _ & H3 & _).
  - vm_compute. reflexivity.
  - intros p ->%elem_of_singleton. simpl. lia.
  - split; [exact H1 | exact H3].
Defined.



(** C3. The exporter maps every line of the Markdown text by
    [export_line].  A line becomes a heading of level k with text t exactly
    when 1 <= k <= 6, the line starts with k hashes and a blank, and t is
    the line without these k + 1 characters; it becomes a paragraph, with
    the whole line as text, exactly when it starts with no such marker.  One
    of the two always applies.  A line that starts with ["### "] is a
    heading of level 3, a line that does not start with a hash is a
    paragraph, and so is the empty line. *)
Theorem heading_mapping (line : str) :
  (∀ md, export_docx md = map export_line (str_splitlines md)) ∧
  (∀ k text, export_line line = Heading k text ↔
     (1 ≤ k ≤ 6)%nat ∧ str_startswith (marker k) line = true ∧
     text = drop (S k) line) ∧
  (∀ text, export_line line = Paragraph text ↔
     text = line ∧
     ∀ k, (1 ≤ k ≤ 6)%nat → str_startswith (marker k) line = false) ∧
  (str_startswith (py "### ") line = true →
   export_line line = Heading 3 (drop 4 line)) ∧
  (head line ≠ Some Chr.hash → export_line line = Paragraph line) ∧
  export_line [] = Paragraph [].
Proof.
  split_and!.
  - intros md. unfold export_docx. by rewrite export_lines_spec.
  - intros k text. split.
    + destruct (export_line_total line) as [(j & Hj & Hmark)|Hnone].
      * rewrite (export_line_heading line j Hj Hmark). by intros [= <- <-].
      * by rewrite (export_line_paragraph line Hnone).
    + intros (Hk & Hmark & ->). by apply export_line_heading.
  - intros text. split.
    + destruct (export_line_total line) as [(j & Hj & Hmark)|Hnone].
      * by rewrite (export_line_heading line j Hj Hmark).
      * rewrite (export_line_paragraph line Hnone). by intros [= <-].
    + intros [-> Hnone]. by apply export_line_paragraph.
  - intros Hmark. apply (export_line_heading line 3); [lia | exact Hmark].
  - intros Hhead. apply export_line_paragraph.
    intros k [Hk _]. by apply marker_no_hash.
  - reflexivity.
Qed.

Lemma heading_mapping_witness :
  export_line (py "### Results") = Heading 3 (py "Results") ∧
  export_line (py "Total: 3 #") = Paragraph (py "Total: 3 #") ∧
  export_line (py "####### deep") = Paragraph (py "####### deep").
Proof.
  split_and!.
  - destruct (heading_mapping (py "### Results")) as (_ & _ & _ & H & _ & _).
    apply H. reflexivity.
  - destruct (heading_mapping (py "Total: 3 #")) as (_ & _ & _ & _ & H & _).
    apply H. discriminate.
  - destruct (heading_mapping (py "####### deep")) as (_ & _ & H & _ & _ & _).
    apply H. split; [reflexivity|].
    intros k Hk.
    assert (k = 1 ∨ k = 2 ∨ k = 3 ∨ k = 4 ∨ k = 5 ∨ k = 6)%nat
      as Hcases by lia.
    destruct_or!; subst; reflexivity.
Defined.

(** C8, as stated, fails: the console script reads and encodes
    [document.pdf] before it looks at the key, and in the app an empty key
    is not even looked at while no file is uploaded. *)
Lemma key_check_not_before_file_read :
  env_key_missing None = true ∧
  docconv (Some []) None (Return []) =
    ([ReadFile; B64Encode], Some (RuntimeError msg_key_not_set)) ∧
  ¬ (∀ document env service,
       env_key_missing env = true →
       (ReadFile ∉ fst (docconv document env service)) ∧
       (B64Encode ∉ fst (docconv document env service))) ∧
  app_convert
    {| api_key := []; keep_images := false; pages_input := [];
       uploaded_file := None; convert_btn := true |} None (Return []) =
    [StError msg_upload_first].
Proof.
  split_and!; try reflexivity.
  intros Hclaim. destruct (Hclaim (Some []) None (Return [])) as [Hread _].
  - reflexivity.
  - apply Hread. simpl. left.
Qed.

(** C8, amended.  In the app, when conversion is requested with a file
    uploaded and the resolved key (the text field, else the environment
    variable) is empty, the only thing that happens is the missing-key
    message: no file read, no encoding, no client, no remote call.  In the
    console script, when [document.pdf] can be read and the environment key
    is unset or empty, the file has been read and encoded when the
    missing-key error is raised, and neither the client is created nor the
    remote call made.  The missing-key message is a message of its own,
    different from the upload reminder and from the generic failure
    report. *)
Theorem missing_key_is_reported :
  (∀ w env service f,
     convert_btn w = true → uploaded_file w = Some f →
     str_not (resolved_key w env) = true →
     app_convert w env service = [StError msg_missing_key]) ∧
  (∀ bytes env service,
     env_key_missing env = true →
     docconv (Some bytes) env service =
       ([ReadFile; B64Encode], Some (RuntimeError msg_key_not_set))) ∧
  msg_missing_key ≠ msg_upload_first ∧
  (∀ e, StError msg_missing_key ≠ StErrorFailed e).
Proof.
  split_and!.
  - intros w env service f Hbtn Hfile Hkey. unfold app_convert.
    by rewrite Hbtn, Hfile, Hkey.
  - intros bytes env service Hkey. unfold docconv. by rewrite Hkey.
  - discriminate.
  - discriminate.
Qed.

Lemma missing_key_is_reported_witness :
  app_convert
    {| api_key := []; keep_images := true; pages_input := py "1-2";
       uploaded_file := Some {| upload_name := py "a.pdf"; upload_bytes := [37; 80] |};
       convert_btn := true |} (Some []) (Return []) =
    [StError msg_missing_key] ∧
  docconv (Some [37; 80]) (Some []) (Return []) =
    ([ReadFile; B64Encode], Some (RuntimeError msg_key_not_set)).
Proof.
  destruct missing_key_is_reported as (Happ & Hscript & _ & _).
  split.
  - apply (Happ _ _ _ {| upload_name := py "a.pdf"; upload_bytes := [37; 80] |});
      reflexivity.
  - apply Hscript. reflexivity.
Defined.

(** * Further properties of the parser *)

(** ** More on stripping *)

Lemma lstrip_with_head (ws : char → bool) (s : str) (c : char) (rest : str) :
  lstrip_with ws s = c :: rest → ws c = false.
Proof.
  induction s as [|c' s IH]; simpl; [done|].
  destruct (ws c') eqn:Hc'; [done|]. by intros [= <- _].
Qed.

Lemma lstrip_with_app_keep (ws : char → bool) (s r : str) :
  lstrip_with ws s ≠ [] → lstrip_with ws (s ++ r) = lstrip_with ws s ++ r.
Proof.
  induction s as [|c s IH]; simpl; [done|].
  destruct (ws c); [done|]. by intros _.
Qed.

Lemma strip_with_nil (ws : char → bool) (s : str) :
  strip_with ws s = [] ↔ forallb ws s = true.
Proof.
  split; [|apply strip_with_all].
  destruct (strip_with_split ws s) as (l & r & Hs & Hl & Hr).
  intros Hnil. rewrite Hs, Hnil. simpl. rewrite forallb_app. by rewrite Hl, Hr.
Qed.

(** White space around a string does not change what stripping leaves. *)
Lemma strip_with_pad (ws : char → bool) (l s r : str) :
  forallb ws l = true → forallb ws r = true →
  strip_with ws (l ++ s ++ r) = strip_with ws s.
Proof.
  intros Hl Hr. unfold strip_with. rewrite lstrip_with_app by done.
  destruct (lstrip_with ws s) as [|c s'] eqn:Hs.
  - rewrite (lstrip_with_all ws (s ++ r)); [done|].
    rewrite forallb_app, Hr, andb_true_r.
    apply strip_with_nil. unfold strip_with. by rewrite Hs.
  - rewrite lstrip_with_app_keep by (by rewrite Hs). rewrite Hs.
    rewrite rev_app_distr. by rewrite lstrip_with_app by (by rewrite forallb_rev).
Qed.

(** What stripping leaves is empty or has no white space at either end. *)
Lemma strip_with_ends (ws : char → bool) (s : str) :
  strip_with ws s = [] ∨
  ∃ c d, head (strip_with ws s) = Some c ∧ ws c = false ∧
         last (strip_with ws s) = Some d ∧ ws d = false.
Proof.
  unfold strip_with.
  destruct (lstrip_with ws s) as [|c x] eqn:Hx; [by left|].
  pose proof (lstrip_with_head ws s c x Hx) as Hc.
  destruct (lstrip_with ws (rev (c :: x))) as [|d y] eqn:Hy; [by left|].
  pose proof (lstrip_with_head ws _ d y Hy) as Hd.
  right. destruct (lstrip_with_split ws (rev (c :: x))) as (w & Hw & Hws).
  rewrite Hy in Hw. apply (f_equal (@rev N)) in Hw.
  rewrite rev_involutive, rev_app_distr in Hw.
  exists c, d. split_and!; [|done| |done].
  - destruct (rev (d :: y)) as [|c' z] eqn:Hz.
    { apply (f_equal (@length N)) in Hz. by rewrite length_rev in Hz. }
    simpl in Hw. by injection Hw as -> _.
  - simpl. by rewrite last_snoc.
Qed.

Lemma strip_with_idemp (ws : char → bool) (s : str) :
  strip_with ws (strip_with ws s) = strip_with ws s.
Proof.
  destruct (strip_with_ends ws s) as [->|(c & d & Hc & Hwc & Hd & Hwd)];
    [done|].
  rewrite <- (app_nil_r (strip_with ws s)) at 1.
  by apply (strip_with_padded ws [] _ [] c d).
Qed.

(** ** Well-formed tokens with white space *)

Lemma str_isdecimal_padded_strip (l m r : str) :
  forallb isspace_char l = true → forallb isspace_char r = true →
  str_isdecimal m = true → str_strip (l ++ m ++ r) = m.
Proof.
  intros Hl Hr Hm. unfold str_strip. rewrite strip_with_pad by done.
  by apply str_strip_numeral.
Qed.

Lemma isspace_no_dash (m : str) :
  forallb isspace_char m = true → existsb (N.eqb Chr.dash) m = false.
Proof.
  intros Hm. rewrite forallb_forall in Hm.
  destruct (existsb (N.eqb Chr.dash) m) eqn:E; [|done].
  apply existsb_exists in E as (c & Hc & <-%N.eqb_eq). by apply Hm in Hc.
Qed.

(** X2. A token that is one number of at most 4300 digits, with any white
    space around it, adds that number. *)
Theorem number_token_adds_page (pages : gset Z) (l m r : str) :
  forallb isspace_char l = true → forallb isspace_char r = true →
  str_isdecimal m = true →
  (Z.of_nat (length m) ≤ int_max_str_digits)%Z →
  parse_part pages (l ++ m ++ r) = Return (pages ∪ {[ numeral_value m ]}).
Proof.
  intros Hl Hr Hm Hlen. unfold parse_part.
  rewrite str_isdecimal_padded_strip by done.
  replace (str_not m) with false by (by destruct m).
  unfold str_contains. rewrite (str_isdecimal_no Chr.dash) by done.
  rewrite str_isdecimal_isdigit, int_of_str_numeral by done. done.
Qed.

Lemma number_token_adds_page_witness :
  parse_part {[ 2%Z ]} (py "  007 ") = Return ({[ 2%Z ]} ∪ {[ 7%Z ]}).
Proof.
  apply (number_token_adds_page {[ 2%Z ]} (py "  ") (py "007") (py " "));
    [reflexivity | reflexivity | reflexivity | by vm_compute].
Defined.

(** X3. A token of two numbers around a dash, of at most 4300 digits each,
    adds the inclusive range between the smaller and the larger one, in
    whichever order they are written.  White space is allowed around the
    token, and between the numbers and the dash as far as [int] skips it
    too. *)
Theorem range_token_adds_range (pages : gset Z) (l a m1 m2 b r : str) :
  forallb isspace_char l = true → forallb isspace_char r = true →
  forallb isspace_char m1 = true → forallb int_pad m1 = true →
  forallb isspace_char m2 = true → forallb int_pad m2 = true →
  str_isdecimal a = true → str_isdecimal b = true →
  (Z.of_nat (length a) ≤ int_max_str_digits)%Z →
  (Z.of_nat (length b) ≤ int_max_str_digits)%Z →
  parse_part pages (l ++ (a ++ m1 ++ Chr.dash :: m2 ++ b) ++ r) =
    Return (pages ∪ py_range (Z.min (numeral_value a) (numeral_value b))
                             (Z.max (numeral_value a) (numeral_value b) + 1)) ∧
  ∀ p, p ∈ py_range (Z.min (numeral_value a) (numeral_value b))
                    (Z.max (numeral_value a) (numeral_value b) + 1) ↔
       (Z.min (numeral_value a) (numeral_value b) ≤ p
          ≤ Z.max (numeral_value a) (numeral_value b))%Z.
Proof.
  intros Hl Hr Hm1 Hp1 Hm2 Hp2 Ha Hb Hla Hlb. split.
  2:{ intros p. rewrite elem_of_py_range. lia. }
  unfold parse_part.
  destruct (str_isdecimal_ends a Ha) as (c & _ & Hc & _ & Hcd & _).
  destruct (str_isdecimal_ends b Hb) as (_ & d & _ & Hd & _ & Hdd).
  assert (str_strip (l ++ (a ++ m1 ++ Chr.dash :: m2 ++ b) ++ r)
          = a ++ m1 ++ Chr.dash :: m2 ++ b) as ->.
  { apply (strip_with_padded isspace_char _ _ _ c d);
      auto using isdecimal_not_space.
    - destruct a; [done|]. by simplify_eq/=.
    - rewrite !last_app, last_cons, last_app. by rewrite Hd. }
  replace (str_not (a ++ m1 ++ Chr.dash :: m2 ++ b)) with false
    by (by destruct a).
  replace (str_contains Chr.dash (a ++ m1 ++ Chr.dash :: m2 ++ b)) with true.
  2:{ unfold str_contains. rewrite !existsb_app. simpl.
      by rewrite !orb_true_r. }
  rewrite (app_assoc a m1), str_split1_at.
  2:{ rewrite existsb_app, (str_isdecimal_no Chr.dash a) by done.
      by rewrite isspace_no_dash. }
  assert (str_strip (a ++ m1) = a) as Hsa.
  { exact (str_isdecimal_padded_strip [] a m1 eq_refl Hm1 Ha). }
  assert (str_strip (m2 ++ b) = b) as Hsb.
  { pose proof (str_isdecimal_padded_strip m2 b [] Hm2 eq_refl Hb) as H.
    by rewrite app_nil_r in H. }
  rewrite Hsa, Hsb, !str_isdecimal_isdigit by done. simpl.
  assert (int_of_str (a ++ m1) = Return (numeral_value a)) as ->
    by exact (int_of_str_padded [] a m1 eq_refl Hp1 Ha Hla).
  assert (int_of_str (m2 ++ b) = Return (numeral_value b)) as ->.
  { pose proof (int_of_str_padded m2 b [] Hp2 eq_refl Hb Hlb) as H.
    by rewrite app_nil_r in H. }
  simpl.
  destruct (Z.ltb_spec (numeral_value b) (numeral_value a)).
  - by rewrite Z.min_r, Z.max_l by lia.
  - by rewrite Z.min_l, Z.max_r by lia.
Qed.

Lemma range_token_adds_range_witness :
  parse_part ∅ (py " 3 - 5 ") = Return (∅ ∪ py_range 3 6) ∧
  parse_part ∅ (py "10-8") = Return (∅ ∪ py_range 8 11).
Proof.
  split.
  - apply (range_token_adds_range ∅ (py " ") (py "3") (py " ") (py " ")
             (py "5") (py " ")); try reflexivity; by vm_compute.
  - apply (range_token_adds_range ∅ [] (py "10") [] [] (py "8") []);
      try reflexivity; by vm_compute.
Defined.

(** ** Page numbers are never negative *)

Lemma digits_value_nonneg (s : str) (acc : Z) (us : bool) (v : Z) :
  (0 ≤ acc)%Z → digits_value acc us s = Some v → (0 ≤ v)%Z.
Proof.
  revert acc us. induction s as [|c s IH]; intros acc us Hacc; simpl.
  - destruct us; [done|]. by intros [= <-].
  - destruct (c =? Chr.underscore).
    + destruct us; [done|]. by apply IH.
    + destruct ((Chr.zero <=? c) && (c <=? Chr.nine)); [|done].
      apply IH. lia.
Qed.

Lemma to_ascii_char_dash (c : N) :
  to_ascii_char c = Chr.dash → c = Chr.dash.
Proof.
  unfold to_ascii_char. destruct (N.ltb_spec c 127); [done|].
  destruct (isspace_char c); [done|].
  destruct (decimal c) as [d|]; [|done]. chr_unfold. lia.
Qed.

(** Behind the guard [a.strip().isdigit()], [int(a)] reads no sign. *)
Lemma int_of_str_guarded_nonneg (a : str) (v : Z) :
  str_isdigit (str_strip a) = true → int_of_str a = Return v → (0 ≤ v)%Z.
Proof.
  intros [_ Hdig]%andb_prop.
  destruct (strip_with_split isspace_char a) as (l & r & Ha & Hl & Hr).
  fold (str_strip a) in Ha.
  assert (forallb (λ c, negb (c =? Chr.dash)) (map to_ascii_char a) = true)
    as Hnodash.
  { rewrite forallb_fmap. apply forallb_forall. intros c Hc.
    apply negb_true_iff, N.eqb_neq. intros ->%to_ascii_char_dash.
    rewrite Ha in Hc. rewrite forallb_forall in Hl, Hr, Hdig.
    apply in_app_or in Hc as [Hc|Hc%in_app_or]; [by apply Hl in Hc|].
    destruct Hc as [Hc|Hc]; [by apply Hdig in Hc | by apply Hr in Hc]. }
  apply (strip_with_forallb int_space) in Hnodash.
  unfold int_of_str.
  destruct (strip_with int_space (map to_ascii_char a)) as [|c t]; [done|].
  simpl in Hnodash. apply andb_prop in Hnodash as [Hc _].
  apply negb_true_iff in Hc. rewrite Hc.
  destruct (c =? Chr.plus).
  - destruct (digits_value 0 true t) as [w|] eqn:Hw; [|done].
    destruct (_ <? _)%Z; [done|].
    intros [= <-]. apply digits_value_nonneg in Hw; lia.
  - destruct (digits_value 0 true (c :: t)) as [w|] eqn:Hw; [|done].
    destruct (_ <? _)%Z; [done|].
    intros [= <-]. apply digits_value_nonneg in Hw; lia.
Qed.

Lemma parse_part_nonneg (pages pages' : gset Z) (part : str) :
  (∀ p, p ∈ pages → (0 ≤ p)%Z) →
  parse_part pages part = Return pages' →
  ∀ p, p ∈ pages' → (0 ≤ p)%Z.
Proof.
  intros Hpages. unfold parse_part.
  destruct (str_not (str_strip part)); [by intros [= <-]|].
  destruct (str_contains Chr.dash (str_strip part)).
  - destruct (str_split1 Chr.dash (str_strip part)) as [|a [|b [|c rest]]];
      try done.
    destruct (str_isdigit (str_strip a)) eqn:Hda; [|by intros [= <-]].
    destruct (str_isdigit (str_strip b)) eqn:Hdb; [|by intros [= <-]].
    simpl.
    destruct (int_of_str a) as [va|] eqn:Hva; [|done].
    destruct (int_of_str b) as [vb|] eqn:Hvb; [|done].
    apply int_of_str_guarded_nonneg in Hva, Hvb; [|done..]. simpl.
    destruct (vb <? va)%Z; intros [= <-] p [?|?%elem_of_py_range]%elem_of_union;
      auto; lia.
  - destruct (str_isdigit (str_strip part)) eqn:Hd; [|by intros [= <-]].
    destruct (int_of_str (str_strip part)) as [v|] eqn:Hv; [|done].
    apply int_of_str_guarded_nonneg in Hv;
      [|by unfold str_strip; rewrite strip_with_idemp].
    simpl. intros [= <-] p [?| ->%elem_of_singleton]%elem_of_union; auto.
Qed.

Lemma parse_parts_nonneg (parts : list (list N)) (pages pages' : gset Z) :
  (∀ p, p ∈ pages → (0 ≤ p)%Z) →
  parse_parts pages parts = Return pages' →
  ∀ p, p ∈ pages' → (0 ≤ p)%Z.
Proof.
  revert pages. induction parts as [|part parts IH]; intros pages Hpages; simpl.
  - by intros [= <-].
  - intros (pages1 & Hpart & Hrest)%bind_Return.
    apply (IH pages1); [|done]. by apply (parse_part_nonneg pages _ part).
Qed.

(** X4. No input makes the parser return a negative page number: a sign
    never passes the [isdigit] guards.  (Page 0 can be returned; the bounds
    filter drops it.) *)
Theorem parsed_pages_are_nonnegative (s : str) (pages : gset Z) :
  parse_page_selection s = Return (Some pages) →
  ∀ p, p ∈ pages → (0 ≤ p)%Z.
Proof.
  unfold parse_page_selection.
  destruct (str_not s); [done|].
  destruct (str_not (str_strip s)); [done|].
  intros (pages' & Hparts & [= Hsome])%bind_Return.
  apply set_or_None_spec in Hsome as [[[=] _]|[[= <-] _]].
  apply (parse_parts_nonneg (str_split Chr.comma (str_strip s)) ∅ pages);
    [|done].
  by intros p ?%not_elem_of_empty.
Qed.

Lemma parsed_pages_are_nonnegative_witness :
  parse_page_selection (py "6-4, 0,-3,+2") =
    Return (Some ({[0; 4; 5; 6]} : gset Z))%Z ∧
  (0 ≤ 5)%Z.
Proof.
  split; [vm_compute; reflexivity|].
  apply (parsed_pages_are_nonnegative (py "6-4, 0,-3,+2") {[0; 4; 5; 6]}%Z).
  - vm_compute. reflexivity.
  - rewrite !elem_of_union, !elem_of_singleton. auto.
Defined.

(** ** Tokens count independently of one another *)

(** What a token adds does not depend on the pages collected so far. *)
Lemma parse_part_union (pages : gset Z) (part : str) :
  parse_part pages part =
    parse_part ∅ part ≫= λ added, Return (pages ∪ added).
Proof.
  unfold parse_part.
  destruct (str_not (str_strip part)); simpl;
    [by rewrite (right_id_L ∅ (∪))|].
  destruct (str_contains Chr.dash (str_strip part)).
  - destruct (str_split1 Chr.dash (str_strip part)) as [|a [|b [|c rest]]];
      try done.
    destruct (str_isdigit (str_strip a) && str_isdigit (str_strip b)); simpl;
      [|by rewrite (right_id_L ∅ (∪))].
    destruct (int_of_str a) as [va|]; [simpl|done].
    destruct (int_of_str b) as [vb|]; [simpl|done].
    destruct (vb <? va)%Z; simpl; by rewrite (left_id_L ∅ (∪)).
  - destruct (str_isdigit (str_strip part)); simpl;
      [|by rewrite (right_id_L ∅ (∪))].
    destruct (int_of_str (str_strip part)); simpl; [|done].
    by rewrite (left_id_L ∅ (∪)).
Qed.

Lemma parse_parts_union (parts : list (list N)) (pages : gset Z) :
  parse_parts pages parts =
    parse_parts ∅ parts ≫= λ added, Return (pages ∪ added).
Proof.
  revert pages. induction parts as [|part parts IH]; intros pages; simpl.
  - by rewrite (right_id_L ∅ (∪)).
  - rewrite (parse_part_union pages).
    destruct (parse_part ∅ part) as [x|e]; simpl; [|done].
    rewrite (IH (pages ∪ x)), (IH x).
    destruct (parse_parts ∅ parts) as [y|e]; simpl; [|done].
    by rewrite (assoc_L (∪)).
Qed.

Lemma parse_parts_cons (part : str) (parts : list (list N)) :
  parse_parts ∅ (part :: parts) =
    parse_part ∅ part ≫= λ x,
    parse_parts ∅ parts ≫= λ y, Return (x ∪ y).
Proof.
  simpl. destruct (parse_part ∅ part) as [x|e]; simpl; [|done].
  apply parse_parts_union.
Qed.

Lemma int_of_str_raises (a : str) (e : exn) :
  int_of_str a = Raise e → e = ValueError.
Proof.
  unfold int_of_str.
  destruct (strip_with int_space (map to_ascii_char a)) as [|c t].
  - simpl. by intros [= <-].
  - destruct (c =? Chr.plus); [|destruct (c =? Chr.dash)];
      destruct (digits_value _ _ _); try (by intros [= <-]);
      destruct (_ <? _)%Z; try done; by intros [= <-].
Qed.

(** The only exception the loop lets out is [ValueError]. *)
Lemma parse_part_raises (pages : gset Z) (part : str) (e : exn) :
  parse_part pages part = Raise e → e = ValueError.
Proof.
  unfold parse_part.
  destruct (str_not (str_strip part)); [done|].
  destruct (str_contains Chr.dash (str_strip part)).
  - destruct (str_split1 Chr.dash (str_strip part)) as [|a [|b [|c rest]]];
      try by intros [= <-].
    destruct (str_isdigit (str_strip a) && str_isdigit (str_strip b));
      [simpl|done].
    destruct (int_of_str a) as [va|] eqn:Hva; simpl;
      [|intros [= <-]; by eapply int_of_str_raises].
    destruct (int_of_str b) as [vb|] eqn:Hvb; simpl;
      [|intros [= <-]; by eapply int_of_str_raises].
    by destruct (vb <? va)%Z.
  - destruct (str_isdigit (str_strip part)); [|done].
    destruct (int_of_str (str_strip part)) eqn:Hv; simpl; [done|].
    intros [= <-]. by eapply int_of_str_raises.
Qed.

Lemma parse_parts_raises (parts : list (list N)) (pages : gset Z) (e : exn) :
  parse_parts pages parts = Raise e → e = ValueError.
Proof.
  revert pages. induction parts as [|part parts IH]; intros pages; simpl;
    [done|].
  destruct (parse_part pages part) as [x|e'] eqn:Hpart; simpl.
  - apply IH.
  - intros [= <-]. by eapply parse_part_raises.
Qed.

(** The result does not depend on the order of the tokens. *)
Lemma parse_parts_perm (parts parts' : list (list N)) :
  parts ≡ₚ parts' → parse_parts ∅ parts = parse_parts ∅ parts'.
Proof.
  induction 1 as [|part l l' _ IH|p q l|l1 l2 l3 _ IH1 _ IH2].
  - done.
  - by rewrite !parse_parts_cons, IH.
  - rewrite !parse_parts_cons.
    destruct (parse_part ∅ p) as [x|e1] eqn:Hp;
      destruct (parse_part ∅ q) as [y|e2] eqn:Hq; simpl; try done.
    + destruct (parse_parts ∅ l) as [z|e]; simpl; [|done].
      by rewrite !(assoc_L (∪)), (comm_L (∪) x y).
    + apply parse_part_raises in Hp, Hq. by subst.
  - by rewrite IH1.
Qed.

Lemma parse_parts_app (xs ys : list (list N)) (pages : gset Z) :
  parse_parts pages (xs ++ ys) =
    parse_parts pages xs ≫= λ pages', parse_parts pages' ys.
Proof.
  revert pages. induction xs as [|x xs IH]; intros pages; simpl; [done|].
  destruct (parse_part pages x) as [pages1|e]; simpl; [apply IH | done].
Qed.

(** Repeating the tokens changes nothing. *)
Lemma parse_parts_twice (parts : list (list N)) :
  parse_parts ∅ (parts ++ parts) = parse_parts ∅ parts.
Proof.
  rewrite parse_parts_app.
  destruct (parse_parts ∅ parts) as [x|e] eqn:Hx; simpl; [|done].
  rewrite parse_parts_union, Hx. simpl. by rewrite (idemp_L (∪)).
Qed.

(** ** The input as a list of tokens *)

Lemma str_split_cons (sep : char) (s : str) :
  ∃ cur rest, str_split sep s = cur :: rest.
Proof.
  destruct s as [|c s]; simpl; [by eexists _, _|].
  destruct (c =? sep); [by eexists _, _|].
  destruct (str_split sep s); by eexists _, _.
Qed.

Lemma str_split_app (sep : char) (x y : str) :
  str_split sep (x ++ sep :: y) = str_split sep x ++ str_split sep y.
Proof.
  induction x as [|c x IH]; simpl.
  - by rewrite N.eqb_refl.
  - destruct (c =? sep); [by rewrite IH|].
    rewrite IH. by destruct (str_split_cons sep x) as (cur & rest & ->).
Qed.

Lemma str_split_pad_left (ws : char → bool) (sep : char) (l x : str) :
  ws sep = false → forallb ws l = true →
  ∃ cur rest, str_split sep x = cur :: rest ∧
              str_split sep (l ++ x) = (l ++ cur) :: rest.
Proof.
  intros Hsep Hl. destruct (str_split_cons sep x) as (cur & rest & Hx).
  exists cur, rest. split; [done|].
  induction l as [|c l IH]; simpl; [done|].
  simpl in Hl. apply andb_prop in Hl as [Hc Hl].
  destruct (N.eqb_spec c sep) as [->|_]; [congruence|].
  by rewrite IH.
Qed.

Lemma str_split_pad_right (ws : char → bool) (sep : char) (x r : str) :
  ws sep = false → forallb ws r = true →
  ∃ front lst, str_split sep x = front ++ [lst] ∧
               str_split sep (x ++ r) = front ++ [lst ++ r].
Proof.
  intros Hsep Hr. induction x as [|c x (front & lst & Hx & Hxr)]; simpl.
  - exists [], []. split; [done|]. simpl. apply str_split_no_sep.
    destruct (existsb (N.eqb sep) r) eqn:E; [|done].
    apply existsb_exists in E as (c & Hc & <-%N.eqb_eq).
    rewrite forallb_forall in Hr. apply Hr in Hc. congruence.
  - rewrite Hx, Hxr. destruct (c =? sep).
    + by exists ([] :: front), lst.
    + destruct front as [|f front]; simpl.
      * by exists [], (c :: lst).
      * by exists ((c :: f) :: front), lst.
Qed.

(** Stripping the whole input first does not change the stripped tokens. *)
Lemma str_split_strip (s : str) :
  map str_strip (str_split Chr.comma (str_strip s)) =
  map str_strip (str_split Chr.comma s).
Proof.
  destruct (strip_with_split isspace_char s) as (l & r & Hs & Hl & Hr).
  fold (str_strip s) in Hs. rewrite Hs at 2.
  destruct (str_split_pad_right isspace_char Chr.comma (str_strip s) r)
    as (front & lst & Hm & Hmr); [done..|].
  destruct (str_split_pad_left isspace_char Chr.comma l (str_strip s ++ r))
    as (cur & rest & Hx & Hlx); [done..|].
  rewrite Hlx. simpl.
  assert (str_strip (l ++ cur) = str_strip cur) as ->.
  { pose proof (strip_with_pad isspace_char l cur [] Hl eq_refl) as H.
    by rewrite app_nil_r in H. }
  change (str_strip cur :: map str_strip rest)
    with (map str_strip (cur :: rest)).
  rewrite <- Hx, Hmr, Hm, !map_app. simpl. do 2 f_equal.
  symmetry. exact (strip_with_pad isspace_char [] lst r eq_refl Hr).
Qed.

Lemma parse_part_strip (pages : gset Z) (part : str) :
  parse_part pages (str_strip part) = parse_part pages part.
Proof.
  unfold parse_part, str_strip. by rewrite strip_with_idemp.
Qed.

Lemma parse_parts_strip (parts : list (list N)) (pages : gset Z) :
  parse_parts pages (map str_strip parts) = parse_parts pages parts.
Proof.
  revert pages. induction parts as [|part parts IH]; intros pages; simpl;
    [done|].
  rewrite parse_part_strip.
  destruct (parse_part pages part); simpl; [apply IH | done].
Qed.

(** The parser in terms of the tokens of the raw input. *)
Lemma parse_page_selection_tokens (s : str) :
  parse_page_selection s =
    if forallb isspace_char s then Return None
    else parse_parts ∅ (str_split Chr.comma s) ≫= λ pages,
         Return (set_or_None pages).
Proof.
  unfold parse_page_selection.
  destruct (forallb isspace_char s) eqn:Hws.
  - destruct (str_not s); [done|].
    unfold str_strip. by rewrite strip_with_all.
  - destruct s as [|c s]; [done|]. simpl str_not.
    destruct (str_strip (c :: s)) as [|c' s'] eqn:Hstrip.
    { apply strip_with_nil in Hstrip. congruence. }
    simpl str_not.
    rewrite <- Hstrip, <- parse_parts_strip, str_split_strip.
    by rewrite parse_parts_strip.
Qed.

Lemma parse_part_blank (pages : gset Z) (w : str) :
  forallb isspace_char w = true → parse_part pages w = Return pages.
Proof.
  intros Hw. unfold parse_part, str_strip. by rewrite strip_with_all.
Qed.

Lemma isspace_no_comma (w : str) :
  forallb isspace_char w = true → existsb (N.eqb Chr.comma) w = false.
Proof.
  intros Hw. rewrite forallb_forall in Hw.
  destruct (existsb (N.eqb Chr.comma) w) eqn:E; [|done].
  apply existsb_exists in E as (c & Hc & <-%N.eqb_eq). by apply Hw in Hc.
Qed.

Lemma parse_parts_split_blank (w : str) :
  forallb isspace_char w = true →
  parse_parts ∅ (str_split Chr.comma w) = Return ∅.
Proof.
  intros Hw. rewrite str_split_no_sep by (by apply isspace_no_comma).
  by rewrite parse_parts_singleton, parse_part_blank.
Qed.

Lemma not_blank_with_comma (x y : str) :
  forallb isspace_char (x ++ Chr.comma :: y) = false.
Proof. rewrite forallb_app. simpl. apply andb_false_r. Qed.

(** X1. White space before and after the whole input does not change the
    result, whatever the input is. *)
Theorem surrounding_space_is_irrelevant (l s r : str) :
  forallb isspace_char l = true → forallb isspace_char r = true →
  parse_page_selection (l ++ s ++ r) = parse_page_selection s.
Proof.
  intros Hl Hr.
  assert (∀ t, parse_page_selection t =
               if str_not (str_strip t) then Return None
               else parse_parts ∅ (str_split Chr.comma (str_strip t)) ≫=
                      λ pages, Return (set_or_None pages)) as Hunfold.
  { intros t. unfold parse_page_selection. by destruct t. }
  rewrite !Hunfold. unfold str_strip. by rewrite strip_with_pad.
Qed.

Lemma surrounding_space_is_irrelevant_witness :
  parse_page_selection (py "  " ++ py "2, 4-6" ++ [Chr.tab; Chr.lf]) =
  parse_page_selection (py "2, 4-6").
Proof.
  apply surrounding_space_is_irrelevant; reflexivity.
Defined.

(** X5. The result does not depend on the order in which the tokens are
    written, and writing the same tokens twice changes nothing; this holds
    for the exception as well as for the returned value. *)
Theorem token_order_is_irrelevant (x y : str) :
  parse_page_selection (x ++ Chr.comma :: y) =
    parse_page_selection (y ++ Chr.comma :: x) ∧
  parse_page_selection (x ++ Chr.comma :: x) = parse_page_selection x.
Proof.
  rewrite !parse_page_selection_tokens, !not_blank_with_comma.
  rewrite !str_split_app. split.
  - by rewrite (parse_parts_perm _ (str_split Chr.comma y ++
                                    str_split Chr.comma x))
      by apply Permutation_app_comm.
  - rewrite parse_parts_twice.
    destruct (forallb isspace_char x) eqn:Hx; [|done].
    by rewrite parse_parts_split_blank.
Qed.

(** X6. A token that is empty or all white space is ignored, wherever it
    stands: between two commas, or after the last one. *)
Theorem blank_token_is_ignored (x w y : str) :
  forallb isspace_char w = true →
  parse_page_selection (x ++ Chr.comma :: w ++ Chr.comma :: y) =
    parse_page_selection (x ++ Chr.comma :: y) ∧
  parse_page_selection (x ++ Chr.comma :: w) = parse_page_selection x.
Proof.
  intros Hw. rewrite !parse_page_selection_tokens, !not_blank_with_comma.
  rewrite !str_split_app.
  rewrite (str_split_no_sep Chr.comma w) by (by apply isspace_no_comma).
  split.
  - rewrite (parse_parts_perm _ (w :: str_split Chr.comma x ++
                                      str_split Chr.comma y))
      by (simpl; symmetry; apply Permutation_middle).
    rewrite parse_parts_cons, parse_part_blank by done. simpl.
    destruct (parse_parts ∅ _); simpl; [|done].
    by rewrite (left_id_L ∅ (∪)).
  - rewrite (parse_parts_perm _ (w :: str_split Chr.comma x))
      by (symmetry; apply Permutation_cons_append).
    rewrite parse_parts_cons, parse_part_blank by done. simpl.
    destruct (forallb isspace_char x) eqn:Hx.
    + by rewrite parse_parts_split_blank.
    + destruct (parse_parts ∅ _); simpl; [|done].
      by rewrite (left_id_L ∅ (∪)).
Qed.

Lemma blank_token_is_ignored_witness :
  parse_page_selection (py "1" ++ Chr.comma :: py "  " ++ Chr.comma :: py "3")
    = parse_page_selection (py "1" ++ Chr.comma :: py "3") ∧
  parse_page_selection (py "1-2" ++ Chr.comma :: []) =
    parse_page_selection (py "1-2").
Proof.
  split.
  - apply (blank_token_is_ignored (py "1") (py "  ") (py "3")). reflexivity.
  - apply (blank_token_is_ignored (py "1-2") [] []). reflexivity.
Defined.

(** * Further properties of the aggregation and the export *)

(** X7. With a non-empty selection, a page of the response is shown exactly
    when its index plus one is a selected page number and its index lies
    within the page count. *)
Theorem page_shown_iff_selected (sel : gset Z) (total : Z) (p : page) :
  sel ≠ ∅ →
  page_selected (selected_idx (Some sel) total) p = true ↔
    (index p + 1)%Z ∈ sel ∧ (0 ≤ index p < total)%Z.
Proof.
  intros Hne. rewrite selected_idx_nonempty by done. simpl.
  rewrite bool_decide_eq_true, elem_of_index_set. split.
  - intros (q & Hq & Hrange & Heq).
    replace (index p + 1)%Z with q by lia. split; [done | lia].
  - intros [Hin Hrange]. exists (index p + 1)%Z.
    split; [done|]. split; lia.
Qed.

Lemma page_shown_iff_selected_witness :
  page_selected (selected_idx (Some {[2%Z; 9%Z]}) 3)
    {| index := 1; markdown := py "b" |} = true ↔
  (index {| index := 1; markdown := py "b" |} + 1)%Z ∈ ({[2%Z; 9%Z]} : gset Z) ∧
  (0 ≤ index {| index := 1; markdown := py "b" |} < 3)%Z.
Proof.
  apply (page_shown_iff_selected {[2%Z; 9%Z]} 3). set_solver.
Defined.

Lemma md_pages_all (pages : list page) :
  md_pages None pages = map page_block pages.
Proof.
  rewrite md_pages_spec. f_equal. induction pages as [|p pages IH]; simpl;
    [done|]. by rewrite IH.
Qed.

(** ** Encoding the text *)

Lemma str_encode_utf8_spec (s : str) :
  str_encode_utf8 s =
    if encodable s then Return (utf8_bytes s) else Raise UnicodeEncodeError.
Proof.
  induction s as [|c s IH]; simpl; [done|].
  destruct (is_surrogate c); simpl; [done|].
  rewrite IH. by destruct (encodable s).
Qed.

Lemma encodable_join (sep : str) (parts : list (list N)) :
  encodable sep = true →
  encodable (str_join sep parts) = forallb encodable parts.
Proof.
  intros Hsep. unfold encodable in *.
  induction parts as [|x parts IH]; [done|].
  rewrite str_join_cons. simpl forallb. rewrite forallb_app. f_equal.
  destruct parts as [|y parts]; [done|].
  rewrite str_join_cons in IH. rewrite <- IH.
  unfold join_after. simpl. by rewrite !forallb_app, Hsep.
Qed.

Lemma uint_str_encodable (u : Decimal.uint) : encodable (uint_str u) = true.
Proof. induction u; simpl; done. Qed.

Lemma encodable_page_block (p : page) :
  encodable (page_block p) = encodable (markdown p).
Proof.
  unfold page_block, page_heading, encodable. rewrite !forallb_app.
  assert (forallb (λ c, negb (is_surrogate c)) (str_of_int (index p + 1))
          = true) as ->.
  { unfold str_of_int. destruct (Z.to_int _); simpl;
      apply uint_str_encodable. }
  done.
Qed.

(** The text can be encoded exactly when every shown body can. *)
Lemma encodable_md_text (idx : option (gset Z)) (pages : list page) :
  encodable (md_text idx pages) =
    forallb (λ p, encodable (markdown p))
      (List.filter (page_selected idx) pages).
Proof.
  unfold md_text. rewrite encodable_join, md_pages_spec by done.
  rewrite forallb_fmap.
  induction (List.filter (page_selected idx) pages) as [|p l IH]; [done|].
  cbn [forallb]. by rewrite encodable_page_block, IH.
Qed.

Lemma filter_page_selected_None (pages : list page) :
  List.filter (page_selected None) pages = pages.
Proof. induction pages as [|p pages IH]; simpl; [done|]. by rewrite IH. Qed.

(** X8. When the parser returns [None] (blank input, or nothing but
    malformed tokens), every page of the response is shown, in order, and
    the message says so.  If no body holds a surrogate, the text is offered
    as UTF-8 and as a Word document; otherwise the conversion ends after
    the preview, with [UnicodeEncodeError]. *)
Theorem no_selection_shows_every_page
    (w : widgets) (key : str) (pages : list page) :
  parse_page_selection (pages_input w) = Return None →
  (forallb (λ p, encodable (markdown p)) pages = true →
   convert_try w key (Return pages) =
     ([ReadUpload; B64Encode; MakeClient key; OcrProcess (keep_images w);
       StInfo (msg_showing_all (Z.of_nat (length pages))); StSuccess;
       StPreview (str_join blank_line (map page_block pages));
       DownloadMarkdown
         (utf8_bytes (str_join blank_line (map page_block pages)));
       DownloadDocx
         (export_docx (str_join blank_line (map page_block pages)))],
      None)) ∧
  (forallb (λ p, encodable (markdown p)) pages = false →
   convert_try w key (Return pages) =
     ([ReadUpload; B64Encode; MakeClient key; OcrProcess (keep_images w);
       StInfo (msg_showing_all (Z.of_nat (length pages))); StSuccess;
       StPreview (str_join blank_line (map page_block pages))],
      Some UnicodeEncodeError)).
Proof.
  intros Hparse. unfold convert_try. rewrite Hparse. simpl selected_idx.
  rewrite str_encode_utf8_spec, encodable_md_text, filter_page_selected_None.
  unfold md_text. rewrite md_pages_all.
  split; by intros ->.
Qed.

Lemma no_selection_shows_every_page_witness :
  convert_try
    {| api_key := py "k"; keep_images := false; pages_input := py "abc, 1-2-3";
       uploaded_file := None; convert_btn := true |} (py "k")
    (Return [ {| index := 0; markdown := [233] |} ]) =
  ([ReadUpload; B64Encode; MakeClient (py "k"); OcrProcess false;
    StInfo (py "Showing all 1 page(s)."); StSuccess;
    StPreview (py "## Page 1" ++ blank_line ++ [233]);
    DownloadMarkdown (py "## Page 1" ++ blank_line ++ [195; 169]);
    DownloadDocx
      [Heading 2 (py "Page 1"); Paragraph []; Paragraph [233]]], None) ∧
  convert_try
    {| api_key := py "k"; keep_images := false; pages_input := [];
       uploaded_file := None; convert_btn := true |} (py "k")
    (Return [ {| index := 0; markdown := [0xD800] |} ]) =
  ([ReadUpload; B64Encode; MakeClient (py "k"); OcrProcess false;
    StInfo (py "Showing all 1 page(s)."); StSuccess;
    StPreview (py "## Page 1" ++ blank_line ++ [0xD800])],
   Some UnicodeEncodeError).
Proof.
  split.
  - apply (no_selection_shows_every_page
      {| api_key := py "k"; keep_images := false;
         pages_input := py "abc, 1-2-3";
         uploaded_file := None; convert_btn := true |} (py "k")
      [ {| index := 0; markdown := [233] |} ]);
      [vm_compute; reflexivity | reflexivity].
  - apply (no_selection_shows_every_page
      {| api_key := py "k"; keep_images := false; pages_input := [];
         uploaded_file := None; convert_btn := true |} (py "k")
      [ {| index := 0; markdown := [0xD800] |} ]);
      [vm_compute; reflexivity | reflexivity].
Defined.

Lemma block_line_export_line (line : str) :
  block_line (export_line line) = line.
Proof.
  destruct (export_line_total line) as [(k & Hk & Hmark)|Hnone].
  - rewrite (export_line_heading line k Hk Hmark). simpl.
    apply str_startswith_spec in Hmark as [rest ->].
    f_equal. replace (S k) with (length (marker k)).
    + by rewrite drop_app_length.
    + unfold marker. rewrite length_app, repeat_length. simpl. lia.
  - by rewrite (export_line_paragraph line Hnone).
Qed.

(** X9. The export loses nothing of a line: the line can be read back from
    the block it becomes, so different lines give different blocks. *)
Theorem export_line_is_lossless (line line' : str) :
  block_line (export_line line) = line ∧
  (export_line line = export_line line' → line = line').
Proof.
  split; [apply block_line_export_line|].
  intros Heq.
  by rewrite <- (block_line_export_line line),
    <- (block_line_export_line line'), Heq.
Qed.

Lemma export_line_is_lossless_witness :
  block_line (export_line (py "## a")) = py "## a" ∧ py "## a" = py "## a".
Proof.
  destruct (export_line_is_lossless (py "## a") (py "## a")) as [H1 H2].
  split; [exact H1 | apply H2; reflexivity].
Defined.

(** ** Lines *)

(** Every line [splitlines] returns is free of line boundaries. *)
Lemma splitlines_from_one_line (s cur : str) :
  one_line cur = true →
  Forall (λ line, one_line line = true) (splitlines_from cur s).
Proof.
  remember (length s) as n eqn:Hn. revert s cur Hn.
  induction n as [n IH] using lt_wf_ind. intros s cur Hn Hcur.
  assert (one_line (rev cur) = true) as Hrev
    by (unfold one_line; by rewrite forallb_rev).
  destruct s as [|c s]; simpl.
  - destruct cur; by repeat constructor.
  - destruct (is_linebreak c) eqn:Hc.
    + constructor; [done|]. destruct s as [|c' s]; [constructor|].
      destruct ((c =? Chr.cr) && (c' =? Chr.lf)).
      * apply (IH (length s)); simpl in *; [lia | done | done].
      * apply (IH (length (c' :: s))); simpl in *; [lia | done | done].
    + apply (IH (length s)); simpl in *; [lia | done |].
      unfold one_line in *. simpl. by rewrite Hc.
Qed.

(** A line that ends with a line feed is returned as it stands. *)
Lemma splitlines_from_line (h cur post : str) :
  one_line h = true →
  splitlines_from cur (h ++ Chr.lf :: post) =
    (rev cur ++ h) :: splitlines_from [] post.
Proof.
  revert cur. induction h as [|c h IH]; intros cur Hh; simpl app.
  - rewrite app_nil_r. simpl. by destruct post.
  - simpl in Hh. apply andb_prop in Hh as [Hc Hh].
    apply negb_true_iff in Hc. simpl. rewrite Hc, IH by done.
    simpl. by rewrite <- app_assoc.
Qed.

Lemma splitlines_from_lf (cur post : str) :
  splitlines_from cur (Chr.lf :: post) = rev cur :: splitlines_from [] post.
Proof. simpl. by destruct post. Qed.

(** So is a line that stands between two line feeds, anywhere. *)
Lemma splitlines_from_between (h post s cur : str) :
  one_line h = true →
  h ∈ splitlines_from cur (s ++ Chr.lf :: h ++ Chr.lf :: post).
Proof.
  intros Hh. remember (length s) as n eqn:Hn. revert s cur Hn.
  induction n as [n IH] using lt_wf_ind. intros s cur Hn.
  destruct s as [|c s].
  - simpl app. rewrite splitlines_from_lf.
    rewrite (splitlines_from_line h []) by done. right. left.
  - simpl app. simpl splitlines_from. destruct (is_linebreak c) eqn:Hc.
    + right. destruct s as [|c' s]; simpl app.
      * cbv beta iota. destruct (_ && _).
        -- rewrite (splitlines_from_line h []) by done. left.
        -- rewrite splitlines_from_lf, (splitlines_from_line h []) by done.
           right. left.
      * cbv beta iota. destruct (_ && _).
        -- apply (IH (length s)); simpl in *; [lia | done].
        -- apply (IH (length (c' :: s))) with (s := c' :: s);
             simpl in *; [lia | done].
    + apply (IH (length s)); simpl in *; [lia | done].
Qed.

Lemma uint_str_one_line (u : Decimal.uint) : one_line (uint_str u) = true.
Proof. induction u; simpl; done. Qed.

Lemma page_heading_one_line (p : page) : one_line (page_heading p) = true.
Proof.
  unfold page_heading, one_line. rewrite forallb_app.
  apply andb_true_intro. split; [done|].
  unfold str_of_int. destruct (Z.to_int _); simpl;
    apply uint_str_one_line.
Qed.

Lemma join_before_blank_line (parts : list (list N)) :
  join_before blank_line parts = [] ∨
  ∃ pre, join_before blank_line parts = pre ++ [Chr.lf].
Proof.
  unfold join_before. induction parts as [|x parts IH]; simpl; [by left|].
  right. destruct IH as [->|[pre ->]].
  - exists (x ++ [Chr.lf]). rewrite app_nil_r. unfold blank_line.
    by rewrite <- app_assoc.
  - exists ((x ++ blank_line) ++ pre). by rewrite <- !app_assoc.
Qed.

(** X10. No heading and no paragraph of the exported document contains a
    line boundary: the document has one block for each line of the
    Markdown text, in order. *)
Theorem exported_blocks_are_single_lines (md : str) :
  length (export_docx md) = length (str_splitlines md) ∧
  map block_line (export_docx md) = str_splitlines md ∧
  Forall (λ b, one_line (block_text b) = true) (export_docx md).
Proof.
  unfold export_docx. rewrite export_lines_spec. simpl.
  pose proof (splitlines_from_one_line md [] eq_refl) as Hlines.
  fold (str_splitlines md) in Hlines.
  split_and!.
  - apply List.length_map.
  - rewrite map_map. clear Hlines.
    induction (str_splitlines md) as [|l ls IH]; simpl; [done|].
    by rewrite block_line_export_line, IH.
  - apply Forall_map. eapply Forall_impl; [exact Hlines|].
    intros l Hl. simpl.
    destruct (export_line_total l) as [(k & Hk & Hmark)|Hnone].
    + rewrite (export_line_heading l k Hk Hmark). simpl.
      unfold one_line in *. rewrite <- (take_drop (S k) l) in Hl.
      rewrite forallb_app in Hl. by apply andb_prop in Hl as [_ ?].
    + by rewrite (export_line_paragraph l Hnone).
Qed.

Lemma page_block_app (p : page) (rest : str) :
  page_block p ++ rest =
    page_heading p ++ Chr.lf :: (Chr.lf :: markdown p ++ rest).
Proof. unfold page_block, blank_line. by rewrite <- !app_assoc. Qed.

(** X11. For every page that is shown, the exported document has a heading
    of level 2 whose text is ["Page N"], N being the numeral of the page's
    index plus one. *)
Theorem every_shown_page_has_a_heading
    (idx : option (gset Z)) (pages : list page) (p : page) :
  p ∈ pages → page_selected idx p = true →
  Heading 2 (py "Page " ++ str_of_int (index p + 1))
    ∈ export_docx (md_text idx pages).
Proof.
  intros Hp Hsel.
  assert (page_heading p ∈ str_splitlines (md_text idx pages)) as Hline.
  { assert (In p (List.filter (page_selected idx) pages)) as Hin
      by (apply filter_In; split; [by apply list_elem_of_In | done]).
    apply in_split in Hin as (xs & ys & Hsplit).
    unfold md_text. rewrite md_pages_spec, Hsplit, map_app. simpl map.
    rewrite str_join_app, page_block_app. unfold str_splitlines.
    destruct (join_before_blank_line (map page_block xs)) as [->|[pre ->]].
    - rewrite app_nil_l.
      rewrite (splitlines_from_line (page_heading p) [])
        by apply page_heading_one_line. left.
    - rewrite <- app_assoc.
      change ([Chr.lf] ++ ?x) with (Chr.lf :: x).
      apply splitlines_from_between, page_heading_one_line. }
  unfold export_docx. rewrite export_lines_spec. simpl.
  apply (list_elem_of_fmap_2 export_line) in Hline.
  rewrite (export_line_heading (page_heading p) 2) in Hline;
    [exact Hline | lia | reflexivity].
Qed.

Lemma every_shown_page_has_a_heading_witness :
  Heading 2 (py "Page " ++ str_of_int (index {| index := 2; markdown := [Chr.cr] |} + 1))
    ∈ export_docx (md_text (Some {[0%Z; 2%Z]})
        [ {| index := 0; markdown := [Chr.cr] |};
          {| index := 1; markdown := py "b" |};
          {| index := 2; markdown := [Chr.cr] |} ]).
Proof.
  apply (every_shown_page_has_a_heading (Some {[0%Z; 2%Z]})
    [ {| index := 0; markdown := [Chr.cr] |};
      {| index := 1; markdown := py "b" |};
      {| index := 2; markdown := [Chr.cr] |} ]
    {| index := 2; markdown := [Chr.cr] |}).
  - right. right. left.
  - vm_compute. reflexivity.
Defined.

(** * Further properties of the two flows *)

(** Membership of an event in an explicit list of events. *)
Ltac event_cases :=
  solve [intuition (try discriminate; try congruence; eauto)
        | firstorder congruence].

(** The events of a conversion that gets as far as the [try]: the calls,
    and then one of three endings. *)
Lemma app_convert_started (w : widgets) (env : option (list N))
    (service : result (list page)) (f : upload) :
  convert_btn w = true → uploaded_file w = Some f →
  str_not (resolved_key w env) = false →
  ∃ tail,
    app_convert w env service =
      [ReadUpload; B64Encode; MakeClient (resolved_key w env);
       OcrProcess (keep_images w)] ++ tail ∧
    ((∃ e, tail = [StErrorFailed e; StException e] ∧
           (service = Raise e ∨
            ∃ pages, service = Return pages ∧
                     parse_page_selection (pages_input w) = Raise e)) ∨
     (∃ pages sel info,
        service = Return pages ∧
        parse_page_selection (pages_input w) = Return sel ∧
        encodable
          (md_text (selected_idx sel (Z.of_nat (length pages))) pages)
          = false ∧
        tail =
          [StInfo info; StSuccess;
           StPreview
             (md_text (selected_idx sel (Z.of_nat (length pages))) pages);
           StErrorFailed UnicodeEncodeError;
           StException UnicodeEncodeError]) ∨
     (∃ pages sel info,
        service = Return pages ∧
        parse_page_selection (pages_input w) = Return sel ∧
        encodable
          (md_text (selected_idx sel (Z.of_nat (length pages))) pages)
          = true ∧
        tail =
          [StInfo info; StSuccess;
           StPreview
             (md_text (selected_idx sel (Z.of_nat (length pages))) pages);
           DownloadMarkdown
             (utf8_bytes
                (md_text (selected_idx sel (Z.of_nat (length pages))) pages));
           DownloadDocx
             (export_docx
                (md_text (selected_idx sel (Z.of_nat (length pages)))
                   pages))])).
Proof.
  intros Hbtn Hfile Hkey. unfold app_convert, convert_try.
  rewrite Hbtn, Hfile, Hkey.
  destruct service as [pages|e].
  - destruct (parse_page_selection (pages_input w)) as [sel|e] eqn:Hparse.
    + rewrite str_encode_utf8_spec.
      destruct (encodable _) eqn:Henc.
      * eexists. split; [reflexivity|]. right. right.
        by eexists pages, sel, _.
      * eexists. split; [reflexivity|]. right. left.
        by eexists pages, sel, _.
    + eexists. split; [reflexivity|]. left. exists e. split; [done|].
      right. by exists pages.
  - eexists. split; [reflexivity|]. left. exists e. split; [done|]. by left.
Qed.

(** X12. The remote service is called exactly when conversion is requested,
    a file is uploaded and the resolved key is not empty; the image flag it
    gets is the one of the checkbox. *)
Theorem ocr_called_iff (w : widgets) (env : option (list N))
    (service : result (list page)) (flag : bool) :
  OcrProcess flag ∈ app_convert w env service ↔
    convert_btn w = true ∧ (∃ f, uploaded_file w = Some f) ∧
    str_not (resolved_key w env) = false ∧ flag = keep_images w.
Proof.
  split.
  - unfold app_convert.
    destruct (convert_btn w) eqn:Hbtn; [|by intros ?%elem_of_nil].
    destruct (uploaded_file w) as [f|] eqn:Hfile;
      [|rewrite elem_of_cons, elem_of_nil; event_cases].
    destruct (str_not (resolved_key w env)) eqn:Hkey;
      [rewrite elem_of_cons, elem_of_nil; event_cases|].
    intros Hin.
    destruct (app_convert_started w env service f Hbtn Hfile Hkey)
      as (tail & Hrun & Htail).
    unfold app_convert in Hrun. rewrite Hbtn, Hfile, Hkey in Hrun.
    rewrite Hrun in Hin. split_and!; [done | by exists f | done |].
    destruct Htail as [(e & -> & _)|[(pages & sel & info & _ & _ & _ & ->)
                                    |(pages & sel & info & _ & _ & _ & ->)]];
      simpl in Hin; rewrite !elem_of_cons, elem_of_nil in Hin; event_cases.
  - intros (Hbtn & [f Hfile] & Hkey & ->).
    destruct (app_convert_started w env service f Hbtn Hfile Hkey)
      as (tail & -> & _).
    simpl. rewrite !elem_of_cons. event_cases.
Qed.

(** X13. The key the client is created with is never empty.  It is the
    value of the text field whenever that is not empty, whatever the
    environment holds; otherwise it is the value of the environment
    variable. *)
Theorem client_key_precedence (w : widgets) (env : option (list N))
    (service : result (list page)) (key : str) :
  MakeClient key ∈ app_convert w env service →
  key ≠ [] ∧
  (api_key w ≠ [] → key = api_key w) ∧
  (api_key w = [] → env = Some key).
Proof.
  unfold app_convert.
  destruct (convert_btn w) eqn:Hbtn; [|by intros ?%elem_of_nil].
  destruct (uploaded_file w) as [f|] eqn:Hfile;
    [|rewrite elem_of_cons, elem_of_nil; event_cases].
  destruct (str_not (resolved_key w env)) eqn:Hkey;
    [rewrite elem_of_cons, elem_of_nil; event_cases|].
  intros Hin.
  destruct (app_convert_started w env service f Hbtn Hfile Hkey)
    as (tail & Hrun & Htail).
  unfold app_convert in Hrun. rewrite Hbtn, Hfile, Hkey in Hrun.
  rewrite Hrun in Hin.
  assert (key = resolved_key w env) as ->.
  { destruct Htail as [(e & -> & _)|[(pages & sel & info & _ & _ & _ & ->)
                                    |(pages & sel & info & _ & _ & _ & ->)]];
      simpl in Hin; rewrite !elem_of_cons, elem_of_nil in Hin; event_cases. }
  unfold resolved_key, str_or, getenv_default in *.
  destruct (api_key w) as [|c k]; simpl in *.
  - destruct env as [v|]; [|done]. split_and!; [by destruct v | done | done].
  - split_and!; done.
Qed.

Lemma client_key_precedence_witness :
  py "field" ≠ [] ∧
  (py "field" ≠ [] → py "field" = py "field") ∧
  (py "field" = [] → Some (py "env") = Some (py "field")).
Proof.
  apply (client_key_precedence
    {| api_key := py "field"; keep_images := false; pages_input := [];
       uploaded_file := Some {| upload_name := py "a.pdf"; upload_bytes := [] |};
       convert_btn := true |} (Some (py "env")) (Raise OSError) (py "field")).
  right. right. left.
Defined.

(** X14. Once the conversion gets past the upload and key checks, the
    Markdown download is offered exactly when the remote call, the parsing
    of the page selection and the UTF-8 encoding of the text all succeed,
    and it holds the bytes of the previewed text; a Word download is only
    ever offered in that case, and is the export of that text.  When the
    remote call or the parser raises, the latter only after the remote call
    was made, the failure is reported and nothing else is shown; when the
    encoding raises, the failure is reported after the preview. *)
Theorem downloads_iff_success (w : widgets) (env : option (list N))
    (service : result (list page)) (f : upload) :
  convert_btn w = true → uploaded_file w = Some f →
  str_not (resolved_key w env) = false →
  (∀ data, DownloadMarkdown data ∈ app_convert w env service ↔
     ∃ pages sel,
       service = Return pages ∧
       parse_page_selection (pages_input w) = Return sel ∧
       encodable
         (md_text (selected_idx sel (Z.of_nat (length pages))) pages) = true ∧
       data =
         utf8_bytes
           (md_text (selected_idx sel (Z.of_nat (length pages))) pages)) ∧
  (∀ doc, DownloadDocx doc ∈ app_convert w env service →
     ∃ pages sel,
       service = Return pages ∧
       parse_page_selection (pages_input w) = Return sel ∧
       encodable
         (md_text (selected_idx sel (Z.of_nat (length pages))) pages) = true ∧
       doc =
         export_docx
           (md_text (selected_idx sel (Z.of_nat (length pages))) pages)) ∧
  (∀ e, service = Raise e ∨
        (∃ pages, service = Return pages ∧
                  parse_page_selection (pages_input w) = Raise e) →
        app_convert w env service =
          [ReadUpload; B64Encode; MakeClient (resolved_key w env);
           OcrProcess (keep_images w); StErrorFailed e; StException e]) ∧
  (∀ pages sel,
     service = Return pages →
     parse_page_selection (pages_input w) = Return sel →
     encodable
       (md_text (selected_idx sel (Z.of_nat (length pages))) pages) = false →
     ∃ info,
       app_convert w env service =
         [ReadUpload; B64Encode; MakeClient (resolved_key w env);
          OcrProcess (keep_images w); StInfo info; StSuccess;
          StPreview
            (md_text (selected_idx sel (Z.of_nat (length pages))) pages);
          StErrorFailed UnicodeEncodeError;
          StException UnicodeEncodeError]).
Proof.
  intros Hbtn Hfile Hkey.
  destruct (app_convert_started w env service f Hbtn Hfile Hkey)
    as (tail & -> & Htail).
  split_and!.
  - intros data. split.
    + destruct Htail
        as [(e & -> & _)|[(pages & sel & info & Hs & Hp & Henc & ->)
                         |(pages & sel & info & Hs & Hp & Henc & ->)]];
        simpl; rewrite !elem_of_cons, elem_of_nil; [event_cases..|].
      intros Hin. exists pages, sel. split_and!; [done..|]. event_cases.
    + intros (pages & sel & Hs & Hp & Henc & ->).
      destruct Htail
        as [(e & -> & [He|(pages' & He & He')])
           |[(pages' & sel' & info & Hs' & Hp' & Henc' & ->)
            |(pages' & sel' & info & Hs' & Hp' & Henc' & ->)]];
        [congruence | congruence | |].
      * assert (pages' = pages) as -> by congruence.
        assert (sel' = sel) as -> by congruence. congruence.
      * assert (pages' = pages) as -> by congruence.
        assert (sel' = sel) as -> by congruence.
        simpl. rewrite !elem_of_cons. event_cases.
  - intros doc.
    destruct Htail
      as [(e & -> & _)|[(pages & sel & info & Hs & Hp & Henc & ->)
                       |(pages & sel & info & Hs & Hp & Henc & ->)]];
      simpl; rewrite !elem_of_cons, elem_of_nil; [event_cases..|].
    intros Hin. exists pages, sel. split_and!; [done..|]. event_cases.
  - intros e He.
    destruct Htail
      as [(e' & -> & [He'|(pages' & He' & Hp')])
         |[(pages' & sel' & info & Hs' & Hp' & _ & ->)
          |(pages' & sel' & info & Hs' & Hp' & _ & ->)]];
      destruct He as [He|(pages & He & Hp)]; try congruence.
    + assert (e' = e) as -> by congruence. done.
    + assert (e' = e) as -> by congruence. done.
  - intros pages sel Hs Hp Henc.
    destruct Htail
      as [(e' & -> & [He'|(pages' & He' & Hp')])
         |[(pages' & sel' & info & Hs' & Hp' & Henc' & ->)
          |(pages' & sel' & info & Hs' & Hp' & Henc' & ->)]];
      [congruence | congruence | |].
    + assert (pages' = pages) as -> by congruence.
      assert (sel' = sel) as -> by congruence. by exists info.
    + assert (pages' = pages) as -> by congruence.
      assert (sel' = sel) as -> by congruence. congruence.
Qed.

Lemma downloads_iff_success_witness :
  app_convert
    {| api_key := py "k"; keep_images := true; pages_input := [0xb2];
       uploaded_file := Some {| upload_name := py "a.pdf"; upload_bytes := [] |};
       convert_btn := true |} None (Return []) =
  [ReadUpload; B64Encode; MakeClient (py "k"); OcrProcess true;
   StErrorFailed ValueError; StException ValueError] ∧
  ∃ info,
    app_convert
      {| api_key := py "k"; keep_images := true; pages_input := [];
         uploaded_file :=
           Some {| upload_name := py "a.pdf"; upload_bytes := [] |};
         convert_btn := true |} None
      (Return [ {| index := 0; markdown := [0xD800] |} ]) =
    [ReadUpload; B64Encode; MakeClient (py "k"); OcrProcess true;
     StInfo info; StSuccess;
     StPreview (py "## Page 1" ++ blank_line ++ [0xD800]);
     StErrorFailed UnicodeEncodeError; StException UnicodeEncodeError].
Proof.
  split.
  - pose (w := {| api_key := py "k"; keep_images := true;
         pages_input := [0xb2];
         uploaded_file :=
           Some {| upload_name := py "a.pdf"; upload_bytes := [] |};
         convert_btn := true |}).
    destruct (downloads_iff_success w None (Return [])
      {| upload_name := py "a.pdf"; upload_bytes := [] |})
      as (_ & _ & Hfail & _); [reflexivity | reflexivity | reflexivity |].
    apply (Hfail ValueError). right. exists []. split; reflexivity.
  - pose (w := {| api_key := py "k"; keep_images := true; pages_input := [];
         uploaded_file :=
           Some {| upload_name := py "a.pdf"; upload_bytes := [] |};
         convert_btn := true |}).
    destruct (downloads_iff_success w None
      (Return [ {| index := 0; markdown := [0xD800] |} ])
      {| upload_name := py "a.pdf"; upload_bytes := [] |})
      as (_ & _ & _ & Henc); [reflexivity | reflexivity | reflexivity |].
    apply (Henc [ {| index := 0; markdown := [0xD800] |} ] None);
      reflexivity.
Defined.



(** * Properties of the download names *)

Lemma rfind_from_lower (c : char) (s : str) (i found lo : Z) :
  (lo ≤ found)%Z → (lo ≤ i)%Z → (lo ≤ rfind_from c i s found)%Z.
Proof.
  revert i found. induction s as [|c' s IH]; intros i found Hf Hi; simpl;
    [done|].
  apply IH; [destruct (c' =? c); lia | lia].
Qed.

Lemma rfind_from_absent (c : char) (s : str) (i found : Z) :
  str_contains c s = false → rfind_from c i s found = found.
Proof.
  unfold str_contains. revert i found.
  induction s as [|c' s IH]; intros i found; simpl; [done|].
  intros [Hc Hs]%orb_false_elim. rewrite N.eqb_sym, Hc. by apply IH.
Qed.

Lemma rfind_from_app (c : char) (s1 s2 : str) (i found : Z) :
  rfind_from c i (s1 ++ s2) found =
    rfind_from c (i + Z.of_nat (length s1)) s2 (rfind_from c i s1 found).
Proof.
  revert i found. induction s1 as [|c' s1 IH]; intros i found; simpl.
  - by rewrite Z.add_0_r.
  - rewrite IH. f_equal. lia.
Qed.

(** The last occurrence, when the rest is free of the character. *)
Lemma str_rfind_last (c : char) (s1 s2 : str) :
  str_contains c s2 = false →
  str_rfind c (s1 ++ c :: s2) = Z.of_nat (length s1).
Proof.
  intros Hs2. unfold str_rfind. rewrite rfind_from_app. simpl.
  rewrite N.eqb_refl. by rewrite rfind_from_absent.
Qed.

Lemma splitext_with_join (sep : char) (altsep : option N) (name : str) :
  fst (splitext_with sep altsep name) ++ snd (splitext_with sep altsep name)
    = name.
Proof.
  unfold splitext_with. destruct (_ <? _)%Z; simpl; [|apply app_nil_r].
  destruct (existsb _ _); simpl; [apply take_drop | apply app_nil_r].
Qed.

Lemma splitext_with_root_nil (sep : char) (altsep : option N) (name : str) :
  fst (splitext_with sep altsep name) = [] ↔ name = [].
Proof.
  split; [|intros ->; unfold splitext_with; by destruct altsep].
  unfold splitext_with.
  set (sepIndex := match altsep with
                   | Some alt => Z.max (str_rfind sep name) (str_rfind alt name)
                   | None => str_rfind sep name
                   end).
  assert (-1 ≤ sepIndex)%Z as Hsep.
  { pose proof (rfind_from_lower sep name 0 (-1) (-1)) as H1.
    unfold sepIndex, str_rfind. destruct altsep; lia. }
  destruct (_ <? _)%Z eqn:Hlt; simpl; [|done].
  apply Z.ltb_lt in Hlt.
  destruct (existsb _ _) eqn:Hdots; simpl; [|done].
  destruct name as [|c name]; [done|].
  replace (Z.to_nat (str_rfind extsep (c :: name)))
    with (S (Z.to_nat (str_rfind extsep (c :: name) - 1))); [done|].
  assert (sepIndex + 1 < str_rfind extsep (c :: name))%Z; [|lia].
  unfold str_slice in Hdots.
  destruct (Z.to_nat (str_rfind extsep (c :: name) - (sepIndex + 1)))
    eqn:Hlen; [done | lia].
Qed.

(** X16. The root and the extension of the upload's name make up the name
    again, and the root is empty only for the empty name.  So the base of
    the download names is never empty: it is ["output"] for an empty name
    and the root of the name otherwise, on either platform. *)
Theorem download_base_name (sep : char) (altsep : option N) (name : str) :
  fst (splitext_with sep altsep name) ++ snd (splitext_with sep altsep name)
    = name ∧
  (fst (splitext_with sep altsep name) = [] ↔ name = []) ∧
  base_name sep altsep name =
    (if str_not name then py "output"
     else fst (splitext_with sep altsep name)) ∧
  base_name sep altsep name ≠ [].
Proof.
  pose proof (splitext_with_root_nil sep altsep name) as Hnil.
  assert (base_name sep altsep name =
          (if str_not name then py "output"
           else fst (splitext_with sep altsep name))) as Hbase.
  { unfold base_name, str_or. destruct name as [|c name].
    - destruct Hnil as [_ Hnil]. by rewrite Hnil.
    - destruct (fst (splitext_with sep altsep (c :: name))); [|done].
      by destruct Hnil as [Hnil _]; specialize (Hnil eq_refl). }
  split_and!; [apply splitext_with_join | done | done |].
  rewrite Hbase. destruct name as [|c name]; [done|]. simpl.
  intros Hroot. by apply Hnil in Hroot.
Qed.

(** X17. For an upload named [stem.ext], where the name holds no
    separator, the extension no dot, and the stem a character other than
    a dot, the downloads are named [stem.md] and [stem.docx]. *)
Theorem download_names_of_plain_name
    (sep : char) (altsep : option N) (stem ext : str) :
  str_contains sep (stem ++ extsep :: ext) = false →
  (∀ alt, altsep = Some alt → str_contains alt (stem ++ extsep :: ext) = false) →
  str_contains extsep ext = false →
  existsb (λ c, negb (c =? extsep)) stem = true →
  splitext_with sep altsep (stem ++ extsep :: ext) = (stem, extsep :: ext) ∧
  md_file_name sep altsep (stem ++ extsep :: ext) = stem ++ py ".md" ∧
  docx_file_name sep altsep (stem ++ extsep :: ext) = stem ++ py ".docx".
Proof.
  intros Hsep Halt Hext Hstem.
  assert (splitext_with sep altsep (stem ++ extsep :: ext)
          = (stem, extsep :: ext)) as Hsplit.
  { unfold splitext_with. rewrite (str_rfind_last extsep) by done.
    assert (match altsep with
            | Some alt => Z.max (str_rfind sep (stem ++ extsep :: ext))
                                (str_rfind alt (stem ++ extsep :: ext))
            | None => str_rfind sep (stem ++ extsep :: ext)
            end = (-1)%Z) as ->.
    { unfold str_rfind. rewrite rfind_from_absent by done.
      destruct altsep as [alt|]; [|done].
      by rewrite rfind_from_absent by auto. }
    replace (-1 <? Z.of_nat (length stem))%Z with true
      by (symmetry; apply Z.ltb_lt; lia).
    unfold str_slice. simpl Z.to_nat at 2. rewrite drop_0.
    replace (Z.of_nat (length stem) - (-1 + 1))%Z
      with (Z.of_nat (length stem)) by lia.
    rewrite !Nat2Z.id, !take_app_length, Hstem.
    by rewrite drop_app_length. }
  split; [done|].
  unfold md_file_name, docx_file_name, base_name, str_or.
  rewrite Hsplit. simpl. by destruct stem.
Qed.

Lemma download_names_of_plain_name_witness :
  md_file_name 47 None (py "scan" ++ extsep :: py "pdf") = py "scan" ++ py ".md" ∧
  docx_file_name 92 (Some 47) (py "scan" ++ extsep :: py "pdf")
    = py "scan" ++ py ".docx".
Proof.
  split.
  - apply (download_names_of_plain_name 47 None (py "scan") (py "pdf"));
      [reflexivity | discriminate | reflexivity | reflexivity].
  - apply (download_names_of_plain_name 92 (Some 47) (py "scan") (py "pdf"));
      [reflexivity | intros alt [= <-]; reflexivity | reflexivity
       | reflexivity].
Defined.
